(** * Forward kinematics and geometric Jacobian of the 7-joint arm (fk.py)

    A shallow embedding of [src/fk.py] over the real numbers.  numpy's
    double-precision arrays are idealised as lists of reals, Python
    exceptions are values of an error monad, and Python integers that are
    used as indices are integers of [Z] with Python's indexing rules. *)

From Stdlib Require Import Reals Lra Lia List ZArith Bool.
Import ListNotations.

Open Scope R_scope.

(* ================================================================= *)
(** ** Exceptions *)

Inductive exn : Type :=
| IndexError
| AssertionError
| ValueError
| ZeroDivisionError.

Inductive result (A : Type) : Type :=
| Ok (a : A)
| Raise (e : exn).

Arguments Ok {A} a.
Arguments Raise {A} e.

Definition bind {A B : Type} (m : result A) (k : A -> result B) : result B :=
  match m with
  | Ok a => k a
  | Raise e => Raise e
  end.

Notation "x <- m ;; k" := (bind m (fun x => k))
  (at level 61, m at next level, right associativity).

(** [for x in xs: s = body(s, x)], stopping at the first exception. *)
Fixpoint for_each {A S : Type} (xs : list A) (body : S -> A -> result S) (s : S)
  : result S :=
  match xs with
  | [] => Ok s
  | x :: xs' => s' <- body s x ;; for_each xs' body s'
  end.

(** A loop whose body prints one line per round: what was printed before an
    exception stays printed. *)
Fixpoint for_each_print {A S O : Type} (xs : list A)
    (body : S -> A -> result (S * O)) (s : S) (printed : list O)
  : list O * result S :=
  match xs with
  | [] => (printed, Ok s)
  | x :: xs' =>
      match body s x with
      | Ok (s', line) => for_each_print xs' body s' (printed ++ [line])
      | Raise e => (printed, Raise e)
      end
  end.

(* ================================================================= *)
(** ** Python lists and ranges *)

Definition len {A : Type} (l : list A) : Z := Z.of_nat (length l).

(** [range(n)]: empty when [n <= 0]. *)
Definition range (n : Z) : list Z := map Z.of_nat (seq 0 (Z.to_nat n)).

(** [l[i]]: a negative index counts from the end, anything outside
    [-len(l) .. len(l)-1] raises IndexError. *)
Definition getitem {A : Type} (l : list A) (i : Z) : result A :=
  let j := (if i <? 0 then len l + i else i)%Z in
  if (j <? 0)%Z then Raise IndexError
  else match nth_error l (Z.to_nat j) with
       | Some a => Ok a
       | None => Raise IndexError
       end.

(** [l[i] = x] for an index known to be in range; out of range the list is
    left as it is (the program never assigns out of range). *)
Fixpoint setitem {A : Type} (l : list A) (i : nat) (x : A) : list A :=
  match l, i with
  | [], _ => []
  | _ :: t, O => x :: t
  | h :: t, S i' => h :: setitem t i' x
  end.

(* ================================================================= *)
(** ** numpy matrices over the reals *)

Definition vector := list R.
Definition matrix := list (list R).

Definition dot (u v : vector) : R :=
  fold_right Rplus 0 (map (fun p => fst p * snd p) (combine u v)).

Definition col (j : nat) (M : matrix) : vector := map (fun r => nth j r 0) M.

Definition ncols (M : matrix) : nat :=
  match M with
  | [] => O
  | r :: _ => length r
  end.

(** [A @ B] *)
Definition matmul (A B : matrix) : matrix :=
  map (fun row => map (fun j => dot row (col j B)) (seq 0 (ncols B))) A.

Infix "@" := matmul (at level 40, left associativity).

(** [np.identity(n)] *)
Definition identity (n : nat) : matrix :=
  map (fun i => map (fun j => if Nat.eqb i j then 1 else 0) (seq 0 n)) (seq 0 n).

(** [np.zeros((r, c))] *)
Definition zeros (r c : nat) : matrix := repeat (repeat 0 c) r.

(** [M[:r, :c]] *)
Definition block (r c : nat) (M : matrix) : matrix := map (firstn c) (firstn r M).

(** [M[0:3, 0]] of a column matrix. *)
Definition rows_upto (r : nat) (M : matrix) : matrix := map (firstn 1) (firstn r M).

(** [A - B], entry by entry. *)
Definition vec_sub (u v : vector) : vector :=
  map (fun p => fst p - snd p) (combine u v).

Definition mat_sub (A B : matrix) : matrix :=
  map (fun p => vec_sub (fst p) (snd p)) (combine A B).

(** numpy's broadcasting of two axis lengths: they must be equal, or one of
    them must be 1. *)
Definition broadcast_dim (a b : nat) : option nat :=
  if Nat.eqb a b then Some a
  else if Nat.eqb a 1 then Some b
  else if Nat.eqb b 1 then Some a
  else None.

(** An axis of length 1 stretched to the length [n]; an axis that already
    has the length [n] is left as it is. *)
Definition stretch {A : Type} (n : nat) (l : list A) : list A :=
  if Nat.eqb (length l) n then l
  else match l with
       | [x] => repeat x n
       | _ => l
       end.

(** [np.asarray] of a nested list: the rows must all have the same length
    (numpy 1.24 and later raise ValueError otherwise). *)
Definition rectangular (M : matrix) : bool :=
  forallb (fun r => Nat.eqb (length r) (ncols M)) M.

(** [u - np.asarray(v)] for a 1-D array [u] and a list of numbers [v]:
    ValueError when the two lengths do not broadcast. *)
Definition np_sub_vec (u v : vector) : result vector :=
  match broadcast_dim (length u) (length v) with
  | Some n => Ok (vec_sub (stretch n u) (stretch n v))
  | None => Raise ValueError
  end.

(** [A - np.asarray(B)] for an [np.matrix] [A] with at least one row and a
    nested list [B]: ValueError when [B] has rows of unequal length or the
    shapes do not broadcast.  An empty [B] is a 1-D array of length 0, which
    is broadcast along the last axis. *)
Definition np_sub_mat (A B : matrix) : result matrix :=
  if negb (rectangular B) then Raise ValueError
  else
    match B with
    | [] =>
        match broadcast_dim (ncols A) 0 with
        | Some _ => Ok (map (fun _ => []) A)
        | None => Raise ValueError
        end
    | _ :: _ =>
        match broadcast_dim (length A) (length B),
              broadcast_dim (ncols A) (ncols B) with
        | Some r, Some c =>
            Ok (mat_sub (stretch r (map (stretch c) A))
                        (stretch r (map (stretch c) B)))
        | _, _ => Raise ValueError
        end
    end.

(** [M.T] *)
Definition transpose (M : matrix) : matrix :=
  map (fun j => col j M) (seq 0 (ncols M)).

(** [np.squeeze] of an [n x 1] [np.matrix]: a matrix stays two-dimensional,
    so the result is the [1 x n] row matrix. *)
Definition squeeze (M : matrix) : matrix := [concat M].

(** [np.vstack((A, B))] *)
Definition vstack (A B : matrix) : matrix := A ++ B.

(** [np.cross] of two 3-vectors. *)
Definition cross (a b : vector) : result vector :=
  match a, b with
  | [a0; a1; a2], [b0; b1; b2] =>
      Ok [a1 * b2 - a2 * b1; a2 * b0 - a0 * b2; a0 * b1 - a1 * b0]
  | _, _ => Raise ValueError
  end.

(** [np.cross] of two [1 x 3] row matrices works along the last axis. *)
Definition cross_rows (A B : matrix) : result matrix :=
  match A, B with
  | [a], [b] => c <- cross a b ;; Ok [c]
  | _, _ => Raise ValueError
  end.

(** [J[:, i] = V] for a column matrix [V] with as many rows as [J]. *)
Definition set_col (J : matrix) (i : nat) (V : matrix) : matrix :=
  map (fun p => setitem (fst p) i (nth 0 (snd p) 0)) (combine J V).

(** [A[:3, :3] = B] for a [3 x 3] matrix [B]. *)
Definition set_block3 (A B : matrix) : matrix :=
  map (fun p => snd p ++ skipn 3 (fst p)) (combine (firstn 3 A) B) ++ skipn 3 A.

(** Euclidean norm of a vector: [np.linalg.norm(v, ord=2)] on one axis. *)
Definition norm2 (v : vector) : R := sqrt (dot v v).

(* ================================================================= *)
(** ** Constants of the module *)

Definition JACOBIAN_SCORE_MAX : R := 10.0.
Definition JACOBIAN_ERROR_THRESH : R := 0.05.
Definition FK_SCORE_MAX : R := 10.0.
Definition FK_ERROR_THRESH : R := 0.005.
Definition TASK1_SCORE_MAX : R := JACOBIAN_SCORE_MAX + FK_SCORE_MAX.

(* ================================================================= *)
(** ** DH parameters *)

(** One entry of the DH table: the dict [{'a': .., 'd': .., 'alpha': ..}]. *)
Record DHParameter : Type := mkDH { a : R; d : R; alpha : R }.

Definition get_panda_DH_params : list DHParameter :=
  [ mkDH   0        0.333   0;
    mkDH   0        0       (- PI / 2);
    mkDH   0        0.316   (PI / 2);
    mkDH   0.0825   0       (PI / 2);
    mkDH (-0.0825)  0.384   (- PI / 2);
    mkDH   0        0       (PI / 2);
    mkDH   0.088    0.07    (PI / 2) ].

(* ================================================================= *)
(** ** get_transform_to_base_from *)

(** The statement block of lines 55-66, which lines 73-84 repeat with
    [level] in the place of [i]: read [pose[i]] and [DH_params[i]], build the
    modified-DH matrix and multiply it into [T] from the right. *)
Definition compose_joint (pose : list R) (DH_params : list DHParameter)
    (T : matrix) (i : Z) : result matrix :=
  th <- getitem pose i ;;
  p <- getitem DH_params i ;;
  let cos_th_i := cos th in
  let sin_th_i := sin th in
  let a_i := a p in
  let cos_alpha_i := cos (alpha p) in
  let sin_alpha_i := sin (alpha p) in
  let d_i := d p in
  Ok (T @ [ [cos_th_i; -1 * sin_th_i; 0; a_i];
            [sin_th_i * cos_alpha_i; cos_th_i * cos_alpha_i;
               -1 * sin_alpha_i; -1 * d_i * sin_alpha_i];
            [sin_th_i * sin_alpha_i; cos_th_i * sin_alpha_i;
               cos_alpha_i; d_i * cos_alpha_i];
            [0; 0; 0; 1] ]).

Definition get_transform_to_base_from (level : Z) (pose : list R)
    (DH_params : list DHParameter) (use_inclusive_range : bool) : result matrix :=
  let T := identity 4 in
  let use_inclusive_range :=
    if negb (level =? len DH_params)%Z then true else use_inclusive_range in
  T <- for_each (range level) (compose_joint pose DH_params) T ;;
  if use_inclusive_range then compose_joint pose DH_params T level
  else Ok T.

(* ================================================================= *)
(** ** calc_Z, calc_P, construct_jacobian *)

Definition calc_Z (l : Z) (q : list R) (DH_params : list DHParameter)
    (base_pose : matrix) : result matrix :=
  T <- get_transform_to_base_from l q DH_params false ;;
  Ok (block 3 3 (base_pose @ T) @ [[0]; [0]; [1]]).

Definition calc_P (l : Z) (q : list R) (n_joints : Z)
    (DH_params : list DHParameter) (base_pose : matrix) : result matrix :=
  TE <- get_transform_to_base_from n_joints q DH_params false ;;
  let P_0E := base_pose @ TE @ [[0]; [0]; [0]; [1]] in
  Tl <- get_transform_to_base_from l q DH_params false ;;
  let P_0_from_i_1 := base_pose @ Tl @ [[0]; [0]; [0]; [1]] in
  let P := mat_sub P_0E P_0_from_i_1 in
  Ok (rows_upto 3 P).

Definition jacobian_column (n_joints : Z) (q : list R)
    (DH_params : list DHParameter) (base_pose : matrix) (J : matrix) (i : Z)
  : result matrix :=
  Zi <- calc_Z i q DH_params base_pose ;;
  P <- calc_P i q n_joints DH_params base_pose ;;
  J_Li <- cross_rows (squeeze Zi) (squeeze P) ;;
  let J_Ai := squeeze Zi in
  Ok (set_col J (Z.to_nat i) (vstack (transpose J_Li) (transpose J_Ai))).

Definition construct_jacobian (n_joints : Z) (q : list R)
    (DH_params : list DHParameter) (base_pose : matrix) : result matrix :=
  if (n_joints <? 0)%Z then Raise ValueError
  else
    let J := zeros 6 (Z.to_nat n_joints) in
    for_each (range n_joints) (jacobian_column n_joints q DH_params base_pose) J.

(* ================================================================= *)
(** ** Collaborators from utils.bullet_utils and scipy *)

(** The robot object: [pandaEnv(physics_client_id, use_IK=1)].  [your_fk]
    reads its [_base_position] only. *)
Record pandaEnv : Type := mkPandaEnv {
  _physics_client_id : Z;
  _use_IK : Z;
  _base_position : R * R * R
}.

(** Rotation block of the unit quaternion along [(qx, qy, qz, qw)]. *)
Definition quat_as_matrix (qx qy qz qw : R) : matrix :=
  let s := 2 / (qx * qx + qy * qy + qz * qz + qw * qw) in
  [ [1 - s * (qy * qy + qz * qz); s * (qx * qy - qz * qw); s * (qx * qz + qy * qw)];
    [s * (qx * qy + qz * qw); 1 - s * (qx * qx + qz * qz); s * (qy * qz - qx * qw)];
    [s * (qx * qz - qy * qw); s * (qy * qz + qx * qw); 1 - s * (qx * qx + qy * qy)] ].

(** Modelled from the spec: [get_matrix_from_pose] of utils.bullet_utils is
    not among the sources.  The spec's data model gives a pose as 3 position
    components followed by a 4-component orientation (a quaternion) and its
    matrix form as rotation block, translation column and bottom row
    [0,0,0,1]; section 4.3 step 1 converts the base position with the
    identity orientation into the base transform. *)
Definition get_matrix_from_pose (pose : list R) : result matrix :=
  match pose with
  | [x; y; z; qx; qy; qz; qw] =>
      Ok (map (fun p => fst p ++ [snd p])
            (combine (quat_as_matrix qx qy qz qw) [x; y; z]) ++ [[0; 0; 0; 1]])
  | _ => Raise ValueError
  end.

(** scipy's [Rotation.from_rotvec([0, 0, t]).as_matrix()]: the rotation by
    the angle [t] about the z axis. *)
Definition from_rotvec_z_as_matrix (t : R) : matrix :=
  [ [cos t; - sin t; 0];
    [sin t; cos t; 0];
    [0; 0; 1] ].

(* ================================================================= *)
(** ** your_fk and score_fk *)

(** One parsed test-case file: the dict [json.load] returns. *)
Record fk_dict : Type := mkFkDict {
  joint_poses : list (list R);
  poses : list (list R);
  jacobian : list matrix
}.

(** What [score_fk] prints for one file. *)
Record file_report : Type := mkReport {
  r_fk_score : R;
  r_fk_max : R;
  r_fk_error_cnt : Z;
  r_jacobian_score : R;
  r_jacobian_max : R;
  r_jacobian_error_cnt : Z;
  r_cases_num : Z
}.

(** The four lists [score_fk] keeps, one slot per test-case file. *)
Record score_state : Type := mkScore {
  fk_score : list R;
  fk_error_cnt : list Z;
  jacobian_score : list R;
  jacobian_error_cnt : list Z
}.

(** Python's float division. *)
Definition truediv (x y : R) : result R :=
  if Req_dec_T y 0 then Raise ZeroDivisionError else Ok (x / y).

Section Collaborators.

(** [get_pose_from_matrix] of utils.bullet_utils (matrix to the
    7-component pose) and the matrix case of [np.linalg.norm(., ord=2)]
    are kept abstract. *)
Variable get_pose_from_matrix : matrix -> list R.
Variable linalg_norm_ord2 : matrix -> R.

(** Line 145: the chain transform in the world frame. *)
Definition end_effector_transform (base_pose : list R) (q : list R)
    (DH_params : list DHParameter) : result matrix :=
  A <- get_matrix_from_pose base_pose ;;
  T <- get_transform_to_base_from 7 q DH_params false ;;
  Ok (A @ T).

(** Lines 153-154: the fixed -45 degree adjustment about z. *)
Definition apply_adjustment (A : matrix) : matrix :=
  let adjustment := from_rotvec_z_as_matrix (-0.785398163397) in
  set_block3 A (block 3 3 A @ adjustment).

Definition your_fk (robot : pandaEnv) (DH_params : list DHParameter)
    (q : list R) : result (list R * matrix) :=
  let base_pos := _base_position robot in
  let base_pose :=
    [fst (fst base_pos); snd (fst base_pos); snd base_pos] ++ [0; 0; 0; 1] in
  if negb ((len DH_params =? 7)%Z && (len q =? 7)%Z) then Raise AssertionError
  else
    A <- end_effector_transform base_pose q DH_params ;;
    let n_joints := len DH_params in
    B <- get_matrix_from_pose base_pose ;;
    jacobian <- construct_jacobian n_joints q DH_params B ;;
    let A := apply_adjustment A in
    let pose_7d := get_pose_from_matrix A in
    Ok (pose_7d, jacobian).

(** Lines 198-219: one test case of file [file_id]. *)
Definition score_case (robot : pandaEnv) (dh_params : list DHParameter)
    (fk : fk_dict) (file_id : Z) (penalty : R) (st : score_state) (i : Z)
  : result score_state :=
  qi <- getitem (joint_poses fk) i ;;
  yours <- your_fk robot dh_params qi ;;
  let your_pose := fst yours in
  let your_jacobian := snd yours in
  gt_pose <- getitem (poses fk) i ;;
  pose_diff <- np_sub_vec your_pose gt_pose ;;
  let fk_error := norm2 pose_diff in
  st <- (if Rgt_dec fk_error FK_ERROR_THRESH then
           s <- getitem (fk_score st) file_id ;;
           c <- getitem (fk_error_cnt st) file_id ;;
           Ok (mkScore (setitem (fk_score st) (Z.to_nat file_id) (s - penalty))
                       (setitem (fk_error_cnt st) (Z.to_nat file_id) (c + 1)%Z)
                       (jacobian_score st) (jacobian_error_cnt st))
         else Ok st) ;;
  gt_jacobian <- getitem (jacobian fk) i ;;
  jacobian_diff <- np_sub_mat your_jacobian gt_jacobian ;;
  let jacobian_error := linalg_norm_ord2 jacobian_diff in
  if Rgt_dec jacobian_error JACOBIAN_ERROR_THRESH then
    s <- getitem (jacobian_score st) file_id ;;
    c <- getitem (jacobian_error_cnt st) file_id ;;
    Ok (mkScore (fk_score st) (fk_error_cnt st)
                (setitem (jacobian_score st) (Z.to_nat file_id) (s - penalty))
                (setitem (jacobian_error_cnt st) (Z.to_nat file_id) (c + 1)%Z))
  else Ok st.

(** Lines 181-230: one test-case file; the report is the message printed at
    the end of the round. *)
Definition score_file (robot : pandaEnv) (dh_params : list DHParameter)
    (testcase_file_num : Z) (st : score_state) (entry : Z * fk_dict)
  : result (score_state * file_report) :=
  let file_id := fst entry in
  let fk := snd entry in
  let cases_num := len (joint_poses fk) in
  share <- truediv TASK1_SCORE_MAX (IZR testcase_file_num) ;;
  penalty <- truediv share (0.3 * IZR cases_num) ;;
  st <- for_each (range cases_num)
          (score_case robot dh_params fk file_id penalty) st ;;
  s <- getitem (fk_score st) file_id ;;
  let st := mkScore (setitem (fk_score st) (Z.to_nat file_id)
                       (if Rlt_dec s 0.0 then 0.0 else s))
                    (fk_error_cnt st) (jacobian_score st)
                    (jacobian_error_cnt st) in
  s <- getitem (jacobian_score st) file_id ;;
  let st := mkScore (fk_score st) (fk_error_cnt st)
                    (setitem (jacobian_score st) (Z.to_nat file_id)
                       (if Rlt_dec s 0.0 then 0.0 else s))
                    (jacobian_error_cnt st) in
  fs <- getitem (fk_score st) file_id ;;
  fmax <- truediv FK_SCORE_MAX (IZR testcase_file_num) ;;
  fc <- getitem (fk_error_cnt st) file_id ;;
  js <- getitem (jacobian_score st) file_id ;;
  jmax <- truediv JACOBIAN_SCORE_MAX (IZR testcase_file_num) ;;
  jc <- getitem (jacobian_error_cnt st) file_id ;;
  Ok (st, mkReport fs fmax fc js jmax jc cases_num).

(** [enumerate(xs)] *)
Definition enumerate {A : Type} (xs : list A) : list (Z * A) :=
  combine (range (len xs)) xs.

(** [score_fk] over the parsed test-case files.  The first component is the
    list of per-file reports printed, also when a later file raises; the
    second is the total score printed at the end with the maximum it is
    printed against, or the exception that ended the run. *)
Definition score_fk (robot : pandaEnv) (testcase_files : list fk_dict)
  : list file_report * result (R * R) :=
  let testcase_file_num := len testcase_files in
  let dh_params := get_panda_DH_params in
  let n := length testcase_files in
  (* the comprehensions evaluate their division once per file, so never
     when there is no file *)
  let st := mkScore (repeat (FK_SCORE_MAX / IZR testcase_file_num) n)
                    (repeat 0%Z n)
                    (repeat (JACOBIAN_SCORE_MAX / IZR testcase_file_num) n)
                    (repeat 0%Z n) in
  let run := for_each_print (enumerate testcase_files)
               (score_file robot dh_params testcase_file_num) st [] in
  (fst run,
   st <- snd run ;;
   total_fk_score <- for_each (range testcase_file_num)
       (fun t file_id => s <- getitem (fk_score st) file_id ;; Ok (t + s)) 0.0 ;;
   total_jacobian_score <- for_each (range testcase_file_num)
       (fun t file_id => s <- getitem (jacobian_score st) file_id ;; Ok (t + s)) 0.0 ;;
   Ok (total_fk_score + total_jacobian_score,
       FK_SCORE_MAX + JACOBIAN_SCORE_MAX)).

End Collaborators.

(* ================================================================= *)
(** ** The specification's vocabulary *)

(** The per-joint matrix as the specification prints it. *)
Definition spec_T (theta : R) (p : DHParameter) : matrix :=
  [ [cos theta; - sin theta; 0; a p];
    [sin theta * cos (alpha p); cos theta * cos (alpha p);
       - sin (alpha p); - d p * sin (alpha p)];
    [sin theta * sin (alpha p); cos theta * sin (alpha p);
       cos (alpha p); d p * cos (alpha p)];
    [0; 0; 0; 1] ].

(** [T_0 . T_1 . ... ], multiplied in joint order starting from identity. *)
Definition spec_product (Ts : list matrix) : matrix :=
  fold_left matmul Ts (identity 4).

(** The per-joint matrices of the joints that have both an angle and a DH
    entry, in joint order. *)
Definition joint_transforms (q : list R) (dh : list DHParameter) : list matrix :=
  map (fun p => spec_T (fst p) (snd p)) (combine q dh).

(** The product of the per-joint matrices of joints [0 .. k-1]. *)
Definition chain (k : nat) (q : list R) (dh : list DHParameter) : matrix :=
  spec_product (firstn k (joint_transforms q dh)).

(** The 3D position of [M . [0,0,0,1]^t]. *)
Definition position (M : matrix) : vector := firstn 3 (col 3 M).

(** The z column of the rotation block of [M]. *)
Definition z_axis (M : matrix) : vector := col 2 (block 3 3 M).

(** [[Z x P ; Z]] for the axis of the frame [Ti] and the lever arm from its
    origin to the origin of the frame [TE], both seen from [base]. *)
Definition axis_lever_column (base TE Ti : matrix) : result vector :=
  let Zi := z_axis (base @ Ti) in
  let Pi := vec_sub (position (base @ TE)) (position (base @ Ti)) in
  c <- cross Zi Pi ;;
  Ok (c ++ Zi).

(** Rows 3-5 of column [i] of a Jacobian: its angular block. *)
Definition angular_block (J : matrix) (i : nat) : vector := skipn 3 (col i J).

(** A [rows x cols] matrix. *)
Definition has_shape (rows cols : nat) (M : matrix) : Prop :=
  length M = rows /\ Forall (fun r => length r = cols) M.

(** The [n x 1] column matrix of a vector. *)
Definition colmat (v : vector) : matrix := map (fun x => [x]) v.

(** A homogeneous transform written out entry by entry. *)
Definition hom (r00 r01 r02 r10 r11 r12 r20 r21 r22 tx ty tz : R) : matrix :=
  [ [r00; r01; r02; tx];
    [r10; r11; r12; ty];
    [r20; r21; r22; tz];
    [0; 0; 0; 1] ].

(** A homogeneous transform whose rotation block has orthonormal columns. *)
Definition rigid (M : matrix) : Prop :=
  exists r00 r01 r02 r10 r11 r12 r20 r21 r22 tx ty tz,
    M = hom r00 r01 r02 r10 r11 r12 r20 r21 r22 tx ty tz /\
    r00 * r00 + r10 * r10 + r20 * r20 = 1 /\
    r01 * r01 + r11 * r11 + r21 * r21 = 1 /\
    r02 * r02 + r12 * r12 + r22 * r22 = 1 /\
    r00 * r01 + r10 * r11 + r20 * r21 = 0 /\
    r00 * r02 + r10 * r12 + r20 * r22 = 0 /\
    r01 * r02 + r11 * r12 + r21 * r22 = 0.

(** [l'] is [l] with the entry at index [k] lowered, or left as it is. *)
Definition shrunk_at (k : nat) (l l' : list R) : Prop :=
  length l' = length l /\
  forall j, nth j l' 0 <= nth j l 0 /\ (j <> k -> nth j l' 0 = nth j l 0).

(** Every entry of [l] is at most [M] and the first [k] are not negative. *)
Definition bounded (M : R) (k : nat) (l : list R) : Prop :=
  forall j, (j < length l)%nat ->
    nth j l 0 <= M /\ ((j < k)%nat -> 0 <= nth j l 0).

(** [sum(l)] from the left, as the totalling loop adds it up. *)
Definition total (l : list R) : R := fold_left Rplus l 0.0.

(** A per-file report within its bounds for [n] test-case files. *)
Definition report_ok (n : nat) (r : file_report) : Prop :=
  0 <= r_fk_score r <= r_fk_max r /\
  r_fk_max r = FK_SCORE_MAX / INR n /\
  0 <= r_jacobian_score r <= r_jacobian_max r /\
  r_jacobian_max r = JACOBIAN_SCORE_MAX / INR n.

(** The four lists of the scorer have one slot per file. *)
Definition state_len (n : nat) (st : score_state) : Prop :=
  length (fk_score st) = n /\ length (fk_error_cnt st) = n /\
  length (jacobian_score st) = n /\ length (jacobian_error_cnt st) = n.

(** A test-case file the scorer can work through: at least one case, seven
    angles per case, a ground-truth pose and Jacobian for every case, every
    ground-truth pose with 7 components and every ground-truth Jacobian a
    [6 x 7] matrix. *)
Definition wf_file (fk : fk_dict) : Prop :=
  (0 < length (joint_poses fk))%nat /\
  Forall (fun q => length q = 7%nat) (joint_poses fk) /\
  (length (joint_poses fk) <= length (poses fk))%nat /\
  (length (joint_poses fk) <= length (jacobian fk))%nat /\
  Forall (fun p => length p = 7%nat) (poses fk) /\
  Forall (has_shape 6 7) (jacobian fk).

(** [l'] is [l] with at most the entry at index [k] changed. *)
Definition unchanged_except {A : Type} (k : nat) (dflt : A) (l l' : list A)
  : Prop :=
  length l' = length l /\ forall j, j <> k -> nth j l' dflt = nth j l dflt.

(** The score of file [k] is its maximum [M] less one penalty per error
    counted so far, and at most [i] errors have been counted. *)
Definition tallied (M penalty : R) (i : Z) (k : nat) (scores : list R)
    (cnts : list Z) : Prop :=
  nth k scores 0 = M - IZR (nth k cnts 0%Z) * penalty /\
  (0 <= nth k cnts 0%Z <= i)%Z.

(** The slots of the files from index [k] on still hold their initial
    values. *)
Definition fresh_from (n k : nat) (st : score_state) : Prop :=
  forall j, (k <= j < n)%nat ->
    nth j (fk_score st) 0 = FK_SCORE_MAX / INR n /\
    nth j (fk_error_cnt st) 0%Z = 0%Z /\
    nth j (jacobian_score st) 0 = JACOBIAN_SCORE_MAX / INR n /\
    nth j (jacobian_error_cnt st) 0%Z = 0%Z.

(** A per-file report whose scores are exactly the per-file maximum less
    one penalty per counted error, cut off at 0, with error counts between 0
    and the number of cases. *)
Definition report_exact (n : nat) (r : file_report) : Prop :=
  let penalty := TASK1_SCORE_MAX / INR n / (0.3 * IZR (r_cases_num r)) in
  (0 < r_cases_num r)%Z /\
  (0 <= r_fk_error_cnt r <= r_cases_num r)%Z /\
  (0 <= r_jacobian_error_cnt r <= r_cases_num r)%Z /\
  r_fk_score r
    = Rmax 0 (FK_SCORE_MAX / INR n - IZR (r_fk_error_cnt r) * penalty) /\
  r_jacobian_score r
    = Rmax 0 (JACOBIAN_SCORE_MAX / INR n
              - IZR (r_jacobian_error_cnt r) * penalty).

(* ================================================================= *)
(** * Properties *)

(** ** The error monad, indexing and ranges *)

Ltac list_eq :=
  repeat match goal with
         | |- Ok _ = Ok _ => f_equal
         | |- _ :: _ = _ :: _ => f_equal
         end.

Lemma for_each_app {A S : Type} (xs ys : list A) (body : S -> A -> result S) (s : S) :
  for_each (xs ++ ys) body s = s' <- for_each xs body s ;; for_each ys body s'.
Proof.
  revert s; induction xs as [|x xs IH]; intros s; simpl; [reflexivity|].
  destruct (body s x) as [s'|e]; simpl; [apply IH | reflexivity].
Qed.

Lemma range_of_nat (n : nat) : range (Z.of_nat n) = map Z.of_nat (seq 0 n).
Proof. unfold range. now rewrite Nat2Z.id. Qed.

Lemma range_succ (n : nat) :
  range (Z.of_nat (S n)) = range (Z.of_nat n) ++ [Z.of_nat n].
Proof. rewrite !range_of_nat, seq_S, map_app. reflexivity. Qed.

Lemma range_nonpos (n : Z) : (n <= 0)%Z -> range n = [].
Proof.
  intros H. unfold range. destruct n; try reflexivity. lia.
Qed.

Lemma getitem_of_nat {A : Type} (l : list A) (i : nat) :
  getitem l (Z.of_nat i) =
  match nth_error l i with Some x => Ok x | None => Raise IndexError end.
Proof.
  unfold getitem.
  destruct (Z.of_nat i <? 0)%Z eqn:E; [apply Z.ltb_lt in E; lia|].
  rewrite E, Nat2Z.id. reflexivity.
Qed.

Lemma getitem_negative {A : Type} (l : list A) (i : Z) :
  (i < 0)%Z ->
  getitem l i =
  if (len l + i <? 0)%Z then Raise IndexError
  else match nth_error l (Z.to_nat (len l + i)) with
       | Some x => Ok x
       | None => Raise IndexError
       end.
Proof.
  intros H. unfold getitem. apply Z.ltb_lt in H. rewrite H. reflexivity.
Qed.

Lemma getitem_ok_iff {A : Type} (l : list A) (i : Z) :
  (exists x, getitem l i = Ok x) <-> (- len l <= i < len l)%Z.
Proof.
  unfold len. destruct (Z.ltb_spec i 0) as [Hneg|Hpos].
  - rewrite getitem_negative by assumption. unfold len.
    destruct (Z.ltb_spec (Z.of_nat (length l) + i) 0) as [H|H].
    + split; [intros [x Hx]; discriminate | lia].
    + destruct (nth_error l (Z.to_nat (Z.of_nat (length l) + i))) eqn:E.
      * split; [lia | eauto].
      * apply nth_error_None in E. lia.
  - pose proof (getitem_of_nat l (Z.to_nat i)) as G.
    rewrite Z2Nat.id in G by assumption. rewrite G.
    destruct (nth_error l (Z.to_nat i)) eqn:E.
    + assert (Z.to_nat i < length l)%nat
        by (apply nth_error_Some; congruence).
      split; [lia | eauto].
    + apply nth_error_None in E.
      split; [intros [x Hx]; discriminate | lia].
Qed.

Lemma getitem_raises {A : Type} (l : list A) (i : Z) :
  ~ (- len l <= i < len l)%Z -> getitem l i = Raise IndexError.
Proof.
  intros H. destruct (getitem l i) as [x|e] eqn:E.
  - exfalso. apply H, getitem_ok_iff. eauto.
  - unfold getitem in E.
    destruct ((if (i <? 0)%Z then (len l + i)%Z else i) <? 0)%Z;
      [congruence|].
    destruct (nth_error l _); congruence.
Qed.

Lemma nth_error_combine {A B : Type} (l1 : list A) (l2 : list B) (i : nat) :
  nth_error (combine l1 l2) i =
  match nth_error l1 i, nth_error l2 i with
  | Some x, Some y => Some (x, y)
  | _, _ => None
  end.
Proof.
  revert l2 i; induction l1 as [|x l1 IH]; intros [|y l2] [|i]; simpl;
    try reflexivity.
  - destruct (nth_error l1 i); reflexivity.
  - apply IH.
Qed.

Lemma firstn_succ_snoc {A : Type} (l : list A) (k : nat) (x : A) :
  nth_error l k = Some x -> firstn (S k) l = firstn k l ++ [x].
Proof.
  revert k; induction l as [|y l IH]; intros [|k] H; simpl in *;
    try discriminate.
  - congruence.
  - f_equal. now apply IH.
Qed.

(** ** The transform builder composes per-joint matrices *)

Lemma modified_dh_matrix_is_spec_T (th : R) (p : DHParameter) :
  [ [cos th; -1 * sin th; 0; a p];
    [sin th * cos (alpha p); cos th * cos (alpha p);
       -1 * sin (alpha p); -1 * d p * sin (alpha p)];
    [sin th * sin (alpha p); cos th * sin (alpha p);
       cos (alpha p); d p * cos (alpha p)];
    [0; 0; 0; 1] ] = spec_T th p.
Proof. unfold spec_T. list_eq; ring. Qed.

Lemma compose_joint_at (pose : list R) (dh : list DHParameter) (T : matrix)
    (i : nat) (th : R) (p : DHParameter) :
  nth_error pose i = Some th -> nth_error dh i = Some p ->
  compose_joint pose dh T (Z.of_nat i) = Ok (T @ spec_T th p).
Proof.
  intros Hq Hp. unfold compose_joint.
  rewrite !getitem_of_nat, Hq, Hp. simpl.
  now rewrite modified_dh_matrix_is_spec_T.
Qed.

Lemma compose_joint_result (pose : list R) (dh : list DHParameter) (T : matrix)
    (i : Z) :
  compose_joint pose dh T i = Raise IndexError \/
  exists th p, getitem pose i = Ok th /\ getitem dh i = Ok p /\
               compose_joint pose dh T i = Ok (T @ spec_T th p).
Proof.
  unfold compose_joint.
  destruct (getitem pose i) as [th|e] eqn:Eq.
  - destruct (getitem dh i) as [p|e] eqn:Ep.
    + right. exists th, p. simpl.
      now rewrite modified_dh_matrix_is_spec_T.
    + left. simpl. f_equal.
      destruct (Z_lt_le_dec i (len dh)) as [H1|H1];
        [destruct (Z_le_gt_dec (- len dh) i) as [H2|H2]|].
      * assert (Hex : exists x, getitem dh i = Ok x)
          by (apply getitem_ok_iff; lia).
        destruct Hex as [x Hx]. congruence.
      * rewrite getitem_raises in Ep by lia. congruence.
      * rewrite getitem_raises in Ep by lia. congruence.
  - left. simpl. f_equal.
    destruct (Z_lt_le_dec i (len pose)) as [H1|H1];
      [destruct (Z_le_gt_dec (- len pose) i) as [H2|H2]|].
    + assert (Hex : exists x, getitem pose i = Ok x)
        by (apply getitem_ok_iff; lia).
      destruct Hex as [x Hx]. congruence.
    + rewrite getitem_raises in Eq by lia. congruence.
    + rewrite getitem_raises in Eq by lia. congruence.
Qed.

Lemma length_joint_transforms (q : list R) (dh : list DHParameter) :
  length (joint_transforms q dh) = Nat.min (length q) (length dh).
Proof. unfold joint_transforms. now rewrite length_map, length_combine. Qed.

Lemma joint_transforms_nth (q : list R) (dh : list DHParameter) (i : nat)
    (th : R) (p : DHParameter) :
  nth_error q i = Some th -> nth_error dh i = Some p ->
  nth_error (joint_transforms q dh) i = Some (spec_T th p).
Proof.
  intros Hq Hp. unfold joint_transforms.
  rewrite nth_error_map, nth_error_combine, Hq, Hp. reflexivity.
Qed.

Lemma loop_composes (q : list R) (dh : list DHParameter) (k : nat) (T : matrix) :
  (k <= length q)%nat -> (k <= length dh)%nat ->
  for_each (range (Z.of_nat k)) (compose_joint q dh) T =
  Ok (fold_left matmul (firstn k (joint_transforms q dh)) T).
Proof.
  induction k as [|k IH]; intros Hq Hd; [reflexivity|].
  destruct (nth_error q k) as [th|] eqn:Eq;
    [|apply nth_error_None in Eq; lia].
  destruct (nth_error dh k) as [p|] eqn:Ep;
    [|apply nth_error_None in Ep; lia].
  rewrite (firstn_succ_snoc _ _ _ (joint_transforms_nth _ _ _ _ _ Eq Ep)).
  rewrite fold_left_app, range_succ, for_each_app, IH by lia.
  cbn [bind for_each fold_left].
  now rewrite (compose_joint_at _ _ _ _ _ _ Eq Ep).
Qed.

Lemma chain_succ (q : list R) (dh : list DHParameter) (k : nat) (th : R)
    (p : DHParameter) :
  nth_error q k = Some th -> nth_error dh k = Some p ->
  chain (S k) q dh = chain k q dh @ spec_T th p.
Proof.
  intros Hq Hp. unfold chain, spec_product.
  rewrite (firstn_succ_snoc _ _ _ (joint_transforms_nth _ _ _ _ _ Hq Hp)).
  now rewrite fold_left_app.
Qed.

(** Below the end of the table the builder includes the joint [level]. *)
Lemma transform_inclusive (q : list R) (dh : list DHParameter) (k : nat)
    (flag : bool) :
  (k < length q)%nat -> (k < length dh)%nat ->
  get_transform_to_base_from (Z.of_nat k) q dh flag = Ok (chain (S k) q dh).
Proof.
  intros Hq Hd. unfold get_transform_to_base_from.
  rewrite loop_composes by lia. cbn [bind].
  replace (Z.of_nat k =? len dh)%Z with false
    by (symmetry; apply Z.eqb_neq; unfold len; lia).
  cbn [negb].
  destruct (nth_error q k) as [th|] eqn:Eq;
    [|apply nth_error_None in Eq; lia].
  destruct (nth_error dh k) as [p|] eqn:Ep;
    [|apply nth_error_None in Ep; lia].
  rewrite (compose_joint_at _ _ _ _ _ _ Eq Ep).
  now rewrite (chain_succ _ _ _ _ _ Eq Ep).
Qed.

(** At the end of the table, with the flag left at [False], it composes the
    joints of the table and nothing more. *)
Lemma transform_full (q : list R) (dh : list DHParameter) :
  (length dh <= length q)%nat ->
  get_transform_to_base_from (len dh) q dh false = Ok (chain (length dh) q dh).
Proof.
  intros Hq. unfold get_transform_to_base_from, len.
  rewrite loop_composes by lia. cbn [bind].
  now rewrite Z.eqb_refl.
Qed.

(** ** Rigid transforms *)

Lemma matmul_hom
    (a00 a01 a02 a10 a11 a12 a20 a21 a22 ax ay az
     b00 b01 b02 b10 b11 b12 b20 b21 b22 bx by' bz : R) :
  hom a00 a01 a02 a10 a11 a12 a20 a21 a22 ax ay az @
  hom b00 b01 b02 b10 b11 b12 b20 b21 b22 bx by' bz =
  hom (a00 * b00 + a01 * b10 + a02 * b20)
      (a00 * b01 + a01 * b11 + a02 * b21)
      (a00 * b02 + a01 * b12 + a02 * b22)
      (a10 * b00 + a11 * b10 + a12 * b20)
      (a10 * b01 + a11 * b11 + a12 * b21)
      (a10 * b02 + a11 * b12 + a12 * b22)
      (a20 * b00 + a21 * b10 + a22 * b20)
      (a20 * b01 + a21 * b11 + a22 * b21)
      (a20 * b02 + a21 * b12 + a22 * b22)
      (a00 * bx + a01 * by' + a02 * bz + ax)
      (a10 * bx + a11 * by' + a12 * bz + ay)
      (a20 * bx + a21 * by' + a22 * bz + az).
Proof. unfold hom, matmul. cbn. list_eq; ring. Qed.

Lemma identity_hom : identity 4 = hom 1 0 0 0 1 0 0 0 1 0 0 0.
Proof. reflexivity. Qed.

Lemma spec_T_hom (th : R) (p : DHParameter) :
  spec_T th p =
  hom (cos th) (- sin th) 0
      (sin th * cos (alpha p)) (cos th * cos (alpha p)) (- sin (alpha p))
      (sin th * sin (alpha p)) (cos th * sin (alpha p)) (cos (alpha p))
      (a p) (- d p * sin (alpha p)) (d p * cos (alpha p)).
Proof. reflexivity. Qed.

Lemma sin_cos_unit (x : R) : sin x * sin x + cos x * cos x = 1.
Proof. pose proof (sin2_cos2 x) as H. unfold Rsqr in H. exact H. Qed.

Lemma rigid_identity : rigid (identity 4).
Proof.
  exists 1, 0, 0, 0, 1, 0, 0, 0, 1, 0, 0, 0.
  split; [reflexivity|]. repeat split; ring.
Qed.

Lemma rigid_spec_T (th : R) (p : DHParameter) : rigid (spec_T th p).
Proof.
  rewrite spec_T_hom. do 12 eexists. split; [reflexivity|].
  pose proof (sin_cos_unit th) as Ht. pose proof (sin_cos_unit (alpha p)) as Ha.
  set (s := sin th) in *. set (c := cos th) in *.
  set (sa := sin (alpha p)) in *. set (ca := cos (alpha p)) in *.
  repeat split.
  - replace (c * c + s * ca * (s * ca) + s * sa * (s * sa))
      with (c * c + s * s * (sa * sa + ca * ca)) by ring.
    rewrite Ha. lra.
  - replace (- s * - s + c * ca * (c * ca) + c * sa * (c * sa))
      with (s * s + c * c * (sa * sa + ca * ca)) by ring.
    rewrite Ha. lra.
  - replace (0 * 0 + - sa * - sa + ca * ca) with (sa * sa + ca * ca) by ring.
    exact Ha.
  - replace (c * - s + s * ca * (c * ca) + s * sa * (c * sa))
      with (s * c * (sa * sa + ca * ca) - s * c) by ring.
    rewrite Ha. ring.
  - ring.
  - ring.
Qed.

Lemma rigid_matmul (A B : matrix) : rigid A -> rigid B -> rigid (A @ B).
Proof.
  intros (a00 & a01 & a02 & a10 & a11 & a12 & a20 & a21 & a22 & ax & ay & az
          & -> & A00 & A11 & A22 & A01 & A02 & A12)
         (b00 & b01 & b02 & b10 & b11 & b12 & b20 & b21 & b22 & bx & by' & bz
          & -> & B00 & B11 & B22 & B01 & B02 & B12).
  rewrite matmul_hom. do 12 eexists. split; [reflexivity|].
  repeat split.
  - replace (_ + _ + _) with
      (b00 * b00 * (a00 * a00 + a10 * a10 + a20 * a20)
       + b10 * b10 * (a01 * a01 + a11 * a11 + a21 * a21)
       + b20 * b20 * (a02 * a02 + a12 * a12 + a22 * a22)
       + 2 * b00 * b10 * (a00 * a01 + a10 * a11 + a20 * a21)
       + 2 * b00 * b20 * (a00 * a02 + a10 * a12 + a20 * a22)
       + 2 * b10 * b20 * (a01 * a02 + a11 * a12 + a21 * a22)) by ring.
    rewrite A00, A11, A22, A01, A02, A12. lra.
  - replace (_ + _ + _) with
      (b01 * b01 * (a00 * a00 + a10 * a10 + a20 * a20)
       + b11 * b11 * (a01 * a01 + a11 * a11 + a21 * a21)
       + b21 * b21 * (a02 * a02 + a12 * a12 + a22 * a22)
       + 2 * b01 * b11 * (a00 * a01 + a10 * a11 + a20 * a21)
       + 2 * b01 * b21 * (a00 * a02 + a10 * a12 + a20 * a22)
       + 2 * b11 * b21 * (a01 * a02 + a11 * a12 + a21 * a22)) by ring.
    rewrite A00, A11, A22, A01, A02, A12. lra.
  - replace (_ + _ + _) with
      (b02 * b02 * (a00 * a00 + a10 * a10 + a20 * a20)
       + b12 * b12 * (a01 * a01 + a11 * a11 + a21 * a21)
       + b22 * b22 * (a02 * a02 + a12 * a12 + a22 * a22)
       + 2 * b02 * b12 * (a00 * a01 + a10 * a11 + a20 * a21)
       + 2 * b02 * b22 * (a00 * a02 + a10 * a12 + a20 * a22)
       + 2 * b12 * b22 * (a01 * a02 + a11 * a12 + a21 * a22)) by ring.
    rewrite A00, A11, A22, A01, A02, A12. lra.
  - replace (_ + _ + _) with
      (b00 * b01 * (a00 * a00 + a10 * a10 + a20 * a20)
       + b10 * b11 * (a01 * a01 + a11 * a11 + a21 * a21)
       + b20 * b21 * (a02 * a02 + a12 * a12 + a22 * a22)
       + (b00 * b11 + b10 * b01) * (a00 * a01 + a10 * a11 + a20 * a21)
       + (b00 * b21 + b20 * b01) * (a00 * a02 + a10 * a12 + a20 * a22)
       + (b10 * b21 + b20 * b11) * (a01 * a02 + a11 * a12 + a21 * a22)) by ring.
    rewrite A00, A11, A22, A01, A02, A12. lra.
  - replace (_ + _ + _) with
      (b00 * b02 * (a00 * a00 + a10 * a10 + a20 * a20)
       + b10 * b12 * (a01 * a01 + a11 * a11 + a21 * a21)
       + b20 * b22 * (a02 * a02 + a12 * a12 + a22 * a22)
       + (b00 * b12 + b10 * b02) * (a00 * a01 + a10 * a11 + a20 * a21)
       + (b00 * b22 + b20 * b02) * (a00 * a02 + a10 * a12 + a20 * a22)
       + (b10 * b22 + b20 * b12) * (a01 * a02 + a11 * a12 + a21 * a22)) by ring.
    rewrite A00, A11, A22, A01, A02, A12. lra.
  - replace (_ + _ + _) with
      (b01 * b02 * (a00 * a00 + a10 * a10 + a20 * a20)
       + b11 * b12 * (a01 * a01 + a11 * a11 + a21 * a21)
       + b21 * b22 * (a02 * a02 + a12 * a12 + a22 * a22)
       + (b01 * b12 + b11 * b02) * (a00 * a01 + a10 * a11 + a20 * a21)
       + (b01 * b22 + b21 * b02) * (a00 * a02 + a10 * a12 + a20 * a22)
       + (b11 * b22 + b21 * b12) * (a01 * a02 + a11 * a12 + a21 * a22)) by ring.
    rewrite A00, A11, A22, A01, A02, A12. lra.
Qed.

Lemma rigid_fold (Ts : list matrix) (T : matrix) :
  rigid T -> Forall rigid Ts -> rigid (fold_left matmul Ts T).
Proof.
  intros HT HTs. revert T HT.
  induction HTs as [|M Ts HM _ IH]; intros T HT; simpl; [exact HT|].
  apply IH, rigid_matmul; assumption.
Qed.

Lemma rigid_chain (k : nat) (q : list R) (dh : list DHParameter) :
  rigid (chain k q dh).
Proof.
  unfold chain, spec_product. apply rigid_fold; [apply rigid_identity|].
  apply Forall_forall. intros M HM.
  apply (In_nth_error) in HM. destruct HM as [i Hi].
  assert (Hin : In M (joint_transforms q dh)).
  { apply nth_error_In with (n := i).
    revert i Hi. generalize (joint_transforms q dh) as l.
    induction k as [|k IH]; intros [|x l] [|i] H; simpl in *;
      try discriminate; [exact H | eauto]. }
  unfold joint_transforms in Hin. apply in_map_iff in Hin.
  destruct Hin as [[th p] [<- _]]. apply rigid_spec_T.
Qed.

(** ** Shapes and columns *)

Lemma shape44_entries (M : matrix) :
  has_shape 4 4 M ->
  exists m00 m01 m02 m03 m10 m11 m12 m13 m20 m21 m22 m23 m30 m31 m32 m33,
    M = [ [m00; m01; m02; m03]; [m10; m11; m12; m13];
          [m20; m21; m22; m23]; [m30; m31; m32; m33] ].
Proof.
  intros [HL HR].
  destruct M as [|r0 [|r1 [|r2 [|r3 [|? ?]]]]]; try discriminate HL.
  inversion_clear HR as [|? ? H0 HR0]. inversion_clear HR0 as [|? ? H1 HR1].
  inversion_clear HR1 as [|? ? H2 HR2]. inversion_clear HR2 as [|? ? H3 _].
  destruct r0 as [|? [|? [|? [|? [|? ?]]]]]; try discriminate H0.
  destruct r1 as [|? [|? [|? [|? [|? ?]]]]]; try discriminate H1.
  destruct r2 as [|? [|? [|? [|? [|? ?]]]]]; try discriminate H2.
  destruct r3 as [|? [|? [|? [|? [|? ?]]]]]; try discriminate H3.
  do 16 eexists. reflexivity.
Qed.

Lemma rigid_shape (M : matrix) : rigid M -> has_shape 4 4 M.
Proof.
  intros (? & ? & ? & ? & ? & ? & ? & ? & ? & ? & ? & ? & -> & _).
  split; [reflexivity|]. repeat constructor.
Qed.

Lemma length_setitem {A : Type} (l : list A) (i : nat) (x : A) :
  length (setitem l i x) = length l.
Proof.
  revert i; induction l as [|h t IH]; intros [|i]; simpl; auto.
Qed.

Lemma nth_setitem_same {A : Type} (l : list A) (i : nat) (x dflt : A) :
  (i < length l)%nat -> nth i (setitem l i x) dflt = x.
Proof.
  revert i; induction l as [|h t IH]; intros [|i] H; simpl in *;
    try lia; auto. apply IH. lia.
Qed.

Lemma nth_setitem_other {A : Type} (l : list A) (i j : nat) (x dflt : A) :
  i <> j -> nth j (setitem l i x) dflt = nth j l dflt.
Proof.
  revert i j; induction l as [|h t IH]; intros [|i] [|j] H; simpl;
    try reflexivity; try congruence. apply IH. congruence.
Qed.

Lemma set_col_shape (J : matrix) (i rows cols : nat) (v : vector) :
  has_shape rows cols J -> length v = rows ->
  has_shape rows cols (set_col J i (colmat v)).
Proof.
  intros [HL HR] Hv. unfold set_col, colmat. split.
  - rewrite length_map, length_combine, length_map. lia.
  - apply Forall_forall. intros r Hr. apply in_map_iff in Hr.
    destruct Hr as [[row x] [<- Hin]]. simpl. rewrite length_setitem.
    apply in_combine_l in Hin. rewrite Forall_forall in HR. now apply HR.
Qed.

Lemma set_col_same (J : matrix) (i : nat) (v : vector) :
  length J = length v -> Forall (fun r => (i < length r)%nat) J ->
  col i (set_col J i (colmat v)) = v.
Proof.
  unfold col, set_col, colmat. revert v.
  induction J as [|r J IH]; intros [|x v] HL HR; simpl in *;
    try discriminate; [reflexivity|].
  inversion_clear HR as [|? ? Hr HJ].
  rewrite nth_setitem_same by assumption. f_equal. apply IH; [lia|assumption].
Qed.

Lemma set_col_other (J : matrix) (i j : nat) (v : vector) :
  length J = length v -> i <> j ->
  col j (set_col J i (colmat v)) = col j J.
Proof.
  unfold col, set_col, colmat. revert v.
  induction J as [|r J IH]; intros [|x v] HL Hij; simpl in *;
    try discriminate; [reflexivity|].
  rewrite nth_setitem_other by assumption. f_equal. apply IH; [lia|assumption].
Qed.

Lemma zeros_shape (r c : nat) : has_shape r c (zeros r c).
Proof.
  unfold zeros. split; [apply repeat_length|].
  apply Forall_forall. intros x Hx. apply repeat_spec in Hx. subst.
  apply repeat_length.
Qed.

(** ** One column of the Jacobian *)

(** Lines 113-119 once the two frames are known: the column written into
    [J] is [[Z x P ; Z]] for these frames. *)
Lemma frames_column (base TE Ti : matrix) :
  has_shape 4 4 base -> rigid TE -> rigid Ti ->
  exists l0 l1 l2 z0 z1 z2,
    axis_lever_column base TE Ti = Ok [l0; l1; l2; z0; z1; z2] /\
    z_axis (base @ Ti) = [z0; z1; z2] /\
    forall (J : matrix) (i : nat),
      (let Zi := block 3 3 (base @ Ti) @ [[0]; [0]; [1]] in
       let P := rows_upto 3 (mat_sub (base @ TE @ [[0]; [0]; [0]; [1]])
                                     (base @ Ti @ [[0]; [0]; [0]; [1]])) in
       J_Li <- cross_rows (squeeze Zi) (squeeze P) ;;
       Ok (set_col J i (vstack (transpose J_Li) (transpose (squeeze Zi))))) =
      Ok (set_col J i (colmat [l0; l1; l2; z0; z1; z2])).
Proof.
  intros HB HE HT.
  destruct (shape44_entries _ HB)
    as (b00 & b01 & b02 & b03 & b10 & b11 & b12 & b13
        & b20 & b21 & b22 & b23 & b30 & b31 & b32 & b33 & ->).
  destruct HE as (e00 & e01 & e02 & e10 & e11 & e12 & e20 & e21 & e22
                  & ex & ey & ez & -> & _).
  destruct HT as (t00 & t01 & t02 & t10 & t11 & t12 & t20 & t21 & t22
                  & tx & ty & tz & -> & _).
  unfold axis_lever_column, z_axis, position, hom. cbn.
  do 6 eexists. split; [reflexivity|]. split; [reflexivity|].
  intros J i. unfold set_col, colmat. cbn.
  f_equal. f_equal. f_equal. list_eq; ring.
Qed.

Lemma jacobian_column_at (q : list R) (dh : list DHParameter) (base : matrix)
    (i : nat) :
  has_shape 4 4 base -> (length dh <= length q)%nat -> (i < length dh)%nat ->
  exists l0 l1 l2 z0 z1 z2,
    axis_lever_column base (chain (length dh) q dh) (chain (S i) q dh)
      = Ok [l0; l1; l2; z0; z1; z2] /\
    z_axis (base @ chain (S i) q dh) = [z0; z1; z2] /\
    forall J : matrix,
      jacobian_column (len dh) q dh base J (Z.of_nat i) =
      Ok (set_col J i (colmat [l0; l1; l2; z0; z1; z2])).
Proof.
  intros HB Hq Hi.
  destruct (frames_column base (chain (length dh) q dh) (chain (S i) q dh) HB
              (rigid_chain _ _ _) (rigid_chain _ _ _))
    as (l0 & l1 & l2 & z0 & z1 & z2 & Hcol & Hz & Hcode).
  exists l0, l1, l2, z0, z1, z2. split; [exact Hcol|]. split; [exact Hz|].
  intros J. unfold jacobian_column, calc_Z, calc_P.
  rewrite transform_inclusive by lia. rewrite transform_full by lia.
  cbn [bind]. rewrite Nat2Z.id. apply Hcode.
Qed.

(** The loop of [construct_jacobian] fills the columns one by one and never
    touches a column again. *)
Lemma fill_columns (body : matrix -> Z -> result matrix) (V : nat -> vector)
    (rows n : nat) :
  (forall i J, (i < n)%nat ->
     body J (Z.of_nat i) = Ok (set_col J i (colmat (V i)))) ->
  (forall i, (i < n)%nat -> length (V i) = rows) ->
  forall (k : nat) (J0 : matrix),
    (k <= n)%nat -> has_shape rows n J0 ->
    exists J, for_each (range (Z.of_nat k)) body J0 = Ok J /\
              has_shape rows n J /\
              (forall i, (i < k)%nat -> col i J = V i) /\
              (forall i, (k <= i)%nat -> col i J = col i J0).
Proof.
  intros Hbody HV. induction k as [|k IH]; intros J0 Hk HJ0.
  - exists J0. split; [reflexivity|]. split; [exact HJ0|].
    split; [intros; lia | reflexivity].
  - destruct (IH J0 ltac:(lia) HJ0) as (J & Hrun & HJ & Hdone & Hrest).
    exists (set_col J k (colmat (V k))).
    rewrite range_succ, for_each_app, Hrun. cbn [bind for_each].
    rewrite Hbody by lia. cbn [bind].
    assert (HJV : length J = length (V k))
      by (destruct HJ as [-> _]; symmetry; apply HV; lia).
    split; [reflexivity|]. split; [|split].
    + apply set_col_shape; [assumption | apply HV; lia].
    + intros i Hi. destruct (Nat.eq_dec i k) as [->|Hne].
      * apply set_col_same; [assumption|].
        destruct HJ as [_ HR]. eapply Forall_impl; [|exact HR].
        simpl. intros r ->. lia.
      * rewrite set_col_other by (auto; lia). apply Hdone. lia.
    + intros i Hi. rewrite set_col_other by (auto; lia). apply Hrest. lia.
Qed.

(** The Jacobian of a chain as long as its table: column [i] is built from
    the frame after joint [i] and the frame after the last joint. *)
Lemma filled_jacobian (q : list R) (dh : list DHParameter)
    (base : matrix) :
  has_shape 4 4 base -> (length dh <= length q)%nat ->
  exists J,
    construct_jacobian (len dh) q dh base = Ok J /\
    has_shape 6 (length dh) J /\
    forall i, (i < length dh)%nat ->
      axis_lever_column base (chain (length dh) q dh) (chain (S i) q dh)
        = Ok (col i J) /\
      angular_block J i = z_axis (base @ chain (S i) q dh).
Proof.
  intros HB Hq. unfold construct_jacobian.
  replace (len dh <? 0)%Z with false
    by (symmetry; apply Z.ltb_ge; unfold len; lia).
  change (Z.to_nat (len dh)) with (Z.to_nat (Z.of_nat (length dh))).
  rewrite Nat2Z.id.
  set (V := fun i : nat =>
              match axis_lever_column base (chain (length dh) q dh)
                      (chain (S i) q dh) with
              | Ok v => v
              | Raise _ => []
              end).
  destruct (fill_columns (jacobian_column (len dh) q dh base) V 6 (length dh))
    with (k := length dh) (J0 := zeros 6 (length dh))
    as (J & Hrun & HJ & Hcols & _).
  - intros i J Hi.
    destruct (jacobian_column_at q dh base i HB Hq Hi)
      as (l0 & l1 & l2 & z0 & z1 & z2 & Hcol & _ & Hcode).
    unfold V. rewrite Hcol. apply Hcode.
  - intros i Hi.
    destruct (jacobian_column_at q dh base i HB Hq Hi)
      as (l0 & l1 & l2 & z0 & z1 & z2 & Hcol & _ & _).
    unfold V. rewrite Hcol. reflexivity.
  - lia.
  - apply zeros_shape.
  - exists J. split; [exact Hrun|]. split; [exact HJ|].
    intros i Hi.
    destruct (jacobian_column_at q dh base i HB Hq Hi)
      as (l0 & l1 & l2 & z0 & z1 & z2 & Hcol & Hz & _).
    unfold angular_block. rewrite (Hcols i Hi). unfold V.
    rewrite Hcol, Hz. split; reflexivity.
Qed.

(** ** The base transform and the entry point *)

Lemma base_transform (x y z : R) :
  get_matrix_from_pose ([x; y; z] ++ [0; 0; 0; 1]) =
  Ok (hom 1 0 0 0 1 0 0 0 1 x y z).
Proof.
  unfold get_matrix_from_pose, quat_as_matrix, hom. cbn.
  replace (0 * 0 + 0 * 0 + 0 * 0 + 1 * 1) with 1 by ring.
  list_eq; field.
Qed.

Lemma rigid_translation (x y z : R) : rigid (hom 1 0 0 0 1 0 0 0 1 x y z).
Proof.
  exists 1, 0, 0, 0, 1, 0, 0, 0, 1, x, y, z.
  split; [reflexivity|]. repeat split; ring.
Qed.

Lemma z_axis_unit (M : matrix) : rigid M -> norm2 (z_axis M) = 1.
Proof.
  intros (r00 & r01 & r02 & r10 & r11 & r12 & r20 & r21 & r22 & tx & ty & tz
          & -> & _ & _ & H & _).
  unfold norm2, z_axis, hom. cbn.
  replace (r02 * r02 + (r12 * r12 + (r22 * r22 + 0))) with 1 by lra.
  apply sqrt_1.
Qed.

Lemma set_block3_frame (A B : matrix) :
  has_shape 4 4 A -> has_shape 3 3 B ->
  col 3 (set_block3 A B) = col 3 A /\
  nth 3 (set_block3 A B) [] = nth 3 A [] /\
  block 3 3 (set_block3 A B) = B /\
  has_shape 4 4 (set_block3 A B).
Proof.
  intros HA [HL HR].
  destruct (shape44_entries _ HA)
    as (a00 & a01 & a02 & a03 & a10 & a11 & a12 & a13
        & a20 & a21 & a22 & a23 & a30 & a31 & a32 & a33 & ->).
  destruct B as [|r0 [|r1 [|r2 [|? ?]]]]; try discriminate HL.
  inversion_clear HR as [|? ? H0 HR0]. inversion_clear HR0 as [|? ? H1 HR1].
  inversion_clear HR1 as [|? ? H2 _].
  destruct r0 as [|? [|? [|? [|? ?]]]]; try discriminate H0.
  destruct r1 as [|? [|? [|? [|? ?]]]]; try discriminate H1.
  destruct r2 as [|? [|? [|? [|? ?]]]]; try discriminate H2.
  cbn. repeat split. repeat constructor.
Qed.

Lemma matmul_shape (A B : matrix) (r c : nat) :
  length A = r -> ncols B = c -> has_shape r c (A @ B).
Proof.
  intros HA HB. unfold matmul. split; [now rewrite length_map|].
  apply Forall_forall. intros row Hrow. apply in_map_iff in Hrow.
  destruct Hrow as [x [<- _]]. now rewrite length_map, length_seq.
Qed.

Lemma block_shape33 (M : matrix) : has_shape 4 4 M -> has_shape 3 3 (block 3 3 M).
Proof.
  intros HM.
  destruct (shape44_entries _ HM)
    as (? & ? & ? & ? & ? & ? & ? & ? & ? & ? & ? & ? & ? & ? & ? & ? & ->).
  split; [reflexivity|]. repeat constructor.
Qed.

Section EntryPoint.

Variable get_pose_from_matrix : matrix -> list R.

Lemma apply_adjustment_frame (A : matrix) :
  has_shape 4 4 A ->
  col 3 (apply_adjustment A) = col 3 A /\
  nth 3 (apply_adjustment A) [] = nth 3 A [] /\
  block 3 3 (apply_adjustment A) =
    block 3 3 A @ from_rotvec_z_as_matrix (-0.785398163397) /\
  has_shape 4 4 (apply_adjustment A).
Proof.
  intros HA. unfold apply_adjustment. apply set_block3_frame; [exact HA|].
  apply matmul_shape; [|reflexivity].
  now destruct (block_shape33 _ HA).
Qed.

(** With seven DH entries and seven angles every step of [your_fk]
    succeeds; the pose is read off the adjusted end-effector transform and
    the Jacobian is the one [construct_jacobian] builds on the base
    transform. *)
Lemma your_fk_valid (robot : pandaEnv) (dh : list DHParameter) (q : list R) :
  length dh = 7%nat -> length q = 7%nat ->
  let '(x, y, z) := _base_position robot in
  let B := hom 1 0 0 0 1 0 0 0 1 x y z in
  exists J,
    end_effector_transform ([x; y; z] ++ [0; 0; 0; 1]) q dh
      = Ok (B @ chain 7 q dh) /\
    construct_jacobian (len dh) q dh B = Ok J /\
    has_shape 6 7 J /\
    (forall i, (i < 7)%nat ->
       axis_lever_column B (chain 7 q dh) (chain (S i) q dh) = Ok (col i J) /\
       angular_block J i = z_axis (B @ chain (S i) q dh)) /\
    your_fk get_pose_from_matrix robot dh q =
      Ok (get_pose_from_matrix (apply_adjustment (B @ chain 7 q dh)), J).
Proof.
  intros Hd Hq. destruct (_base_position robot) as [[x y] z] eqn:Hbase.
  destruct (filled_jacobian q dh (hom 1 0 0 0 1 0 0 0 1 x y z))
    as (J & HJ & Hshape & Hcols);
    [apply rigid_shape, rigid_translation | lia |].
  rewrite Hd in Hshape, Hcols.
  assert (HE : end_effector_transform ([x; y; z] ++ [0; 0; 0; 1]) q dh
               = Ok (hom 1 0 0 0 1 0 0 0 1 x y z @ chain 7 q dh)).
  { unfold end_effector_transform. rewrite base_transform. cbn [bind].
    pose proof (transform_full q dh ltac:(lia)) as HT.
    unfold len in HT. rewrite Hd in HT. change (Z.of_nat 7) with 7%Z in HT.
    now rewrite HT. }
  exists J. split; [exact HE|]. split; [exact HJ|]. split; [exact Hshape|].
  split; [exact Hcols|].
  unfold your_fk. rewrite Hbase. cbn [fst snd].
  unfold len at 1 2. rewrite Hd, Hq.
  cbn [Z.of_nat Z.eqb Pos.eqb andb negb Pos.of_succ_nat Pos.succ].
  rewrite HE. cbn [bind]. rewrite base_transform. cbn [bind].
  rewrite HJ. reflexivity.
Qed.

Lemma your_fk_rejects (robot : pandaEnv) (dh : list DHParameter) (q : list R) :
  length dh <> 7%nat \/ length q <> 7%nat ->
  your_fk get_pose_from_matrix robot dh q = Raise AssertionError.
Proof.
  intros H. unfold your_fk.
  replace ((len dh =? 7)%Z && (len q =? 7)%Z) with false; [reflexivity|].
  symmetry. apply andb_false_iff. unfold len.
  destruct H as [H|H]; [left|right]; apply Z.eqb_neq; lia.
Qed.

End EntryPoint.

(** ** Locality of the chain *)

Lemma chain_firstn (k : nat) (q : list R) (dh : list DHParameter) :
  chain k q dh = chain k (firstn k q) dh.
Proof.
  unfold chain, joint_transforms.
  rewrite !firstn_map, !combine_firstn, firstn_firstn, Nat.min_id.
  reflexivity.
Qed.

Lemma chain_local (k : nat) (q q' : list R) (dh : list DHParameter) :
  firstn k q' = firstn k q -> chain k q' dh = chain k q dh.
Proof.
  intros H. rewrite (chain_firstn k q'), (chain_firstn k q). now rewrite H.
Qed.

(** Turning joint [level] from angle 0 to angle pi changes the product of
    the joints [0 .. level]. *)
Lemma chain_sensitive_to_last (k : nat) (pre post : list R)
    (dh : list DHParameter) :
  length pre = k -> (k < length dh)%nat ->
  chain (S k) (pre ++ 0 :: post) dh <> chain (S k) (pre ++ PI :: post) dh.
Proof.
  intros Hpre Hk.
  destruct (nth_error dh k) as [p|] eqn:Ep;
    [|apply nth_error_None in Ep; lia].
  assert (Hn : forall x, nth_error (pre ++ x :: post) k = Some x).
  { intros x. rewrite nth_error_app2 by lia.
    replace (k - length pre)%nat with 0%nat by lia. reflexivity. }
  rewrite (chain_succ _ _ _ _ _ (Hn 0) Ep), (chain_succ _ _ _ _ _ (Hn PI) Ep).
  assert (Hsame : chain k (pre ++ PI :: post) dh = chain k (pre ++ 0 :: post) dh).
  { apply chain_local. rewrite !firstn_app.
    replace (k - length pre)%nat with 0%nat by lia. reflexivity. }
  rewrite Hsame.
  destruct (rigid_chain k (pre ++ 0 :: post) dh)
    as (r00 & r01 & r02 & r10 & r11 & r12 & r20 & r21 & r22 & tx & ty & tz
        & -> & Hunit & _).
  rewrite !spec_T_hom, !matmul_hom, cos_0, sin_0, cos_PI, sin_PI.
  unfold hom. intros Heq.
  injection Heq as H2 _ H1 _ H0 _.
  assert (r00 = 0) by lra. assert (r10 = 0) by lra. assert (r20 = 0) by lra.
  subst. lra.
Qed.

(** ** Which calls of the transform builder stay in bounds *)

Lemma compose_joint_past_table (pose : list R) (dh : list DHParameter)
    (T : matrix) :
  compose_joint pose dh T (len dh) = Raise IndexError.
Proof.
  destruct (compose_joint_result pose dh T (len dh))
    as [H|(th & p & _ & Hp & _)]; [exact H|].
  assert (Hex : exists x, getitem dh (len dh) = Ok x) by eauto.
  apply getitem_ok_iff in Hex. lia.
Qed.

Lemma loop_past_table (pose : list R) (dh : list DHParameter) (T : matrix)
    (level : Z) :
  (len dh < level)%Z ->
  (length dh <= length pose)%nat ->
  for_each (range level) (compose_joint pose dh) T = Raise IndexError.
Proof.
  intros Hl Hq. unfold range.
  replace (Z.to_nat level)
    with (length dh + S (Z.to_nat level - S (length dh)))%nat
    by (unfold len in Hl; lia).
  rewrite seq_app, map_app, for_each_app.
  pose proof (loop_composes pose dh (length dh) T Hq (le_n _)) as Hloop.
  rewrite range_of_nat in Hloop. rewrite Hloop. cbn [bind].
  simpl seq. cbn [map for_each].
  change (Z.of_nat (length dh)) with (len dh).
  rewrite compose_joint_past_table. reflexivity.
Qed.

Lemma transform_past_table (pose : list R) (dh : list DHParameter) :
  (length dh <= length pose)%nat ->
  get_transform_to_base_from (len dh) pose dh true = Raise IndexError.
Proof.
  intros Hq. unfold get_transform_to_base_from.
  unfold len at 1 2. rewrite loop_composes by lia. cbn [bind].
  rewrite Z.eqb_refl. cbn [negb].
  apply compose_joint_past_table.
Qed.

Lemma transform_negative_level (pose : list R) (dh : list DHParameter)
    (level : Z) (flag : bool) :
  (- len dh <= level < 0)%Z -> (length dh <= length pose)%nat ->
  exists T, get_transform_to_base_from level pose dh flag = Ok T.
Proof.
  intros Hl Hq. unfold get_transform_to_base_from.
  rewrite range_nonpos by lia. cbn [for_each bind].
  replace (level =? len dh)%Z with false
    by (symmetry; apply Z.eqb_neq; unfold len in *; lia).
  cbn [negb].
  destruct (compose_joint_result pose dh (identity 4) level)
    as [H|(th & p & _ & _ & H)]; [|eauto].
  exfalso. unfold compose_joint in H.
  assert (Hpose : exists x, getitem pose level = Ok x)
    by (apply getitem_ok_iff; unfold len in *; lia).
  assert (Hdh : exists x, getitem dh level = Ok x)
    by (apply getitem_ok_iff; unfold len in *; lia).
  destruct Hpose as [th Hth]. destruct Hdh as [p Hp].
  rewrite Hth, Hp in H. discriminate H.
Qed.

(** The exact set of in-bounds calls for a pose vector at least as long as
    the table and a level that is not below [-len(DH_params)]. *)
Lemma in_bounds_characterisation (pose : list R) (dh : list DHParameter)
    (level : Z) (flag : bool) :
  (- len dh <= level)%Z -> (length dh <= length pose)%nat ->
  (exists T, get_transform_to_base_from level pose dh flag = Ok T) <->
  ((level < len dh)%Z \/ (level = len dh /\ flag = false)).
Proof.
  intros Hl Hq.
  destruct (Z_lt_le_dec level 0) as [Hneg|Hpos].
  - split; [intros _; left; unfold len; lia|].
    intros _. apply transform_negative_level; [lia | exact Hq].
  - destruct (Z_lt_le_dec level (len dh)) as [Hlt|Hge].
    + split; [intros _; now left|]. intros _.
      rewrite <- (Z2Nat.id level) by assumption.
      rewrite transform_inclusive by (unfold len in Hlt; lia). eauto.
    + destruct (Z.eq_dec level (len dh)) as [->|Hne].
      * destruct flag.
        -- rewrite transform_past_table by assumption.
           split; [intros [T HT]; discriminate|].
           intros [H|[_ H]]; [lia | discriminate].
        -- rewrite transform_full by assumption.
           split; [intros _; now right | eauto].
      * unfold get_transform_to_base_from.
        rewrite loop_past_table by (assumption || lia). cbn [bind].
        split; [intros [T HT]; discriminate|].
        intros [H|[H _]]; lia.
Qed.

(** ** Scores *)

Lemma getitem_nth (l : list R) (k : nat) (x : R) :
  getitem l (Z.of_nat k) = Ok x -> (k < length l)%nat /\ nth k l 0 = x.
Proof.
  rewrite getitem_of_nat. destruct (nth_error l k) as [y|] eqn:E; [|discriminate].
  intros [= <-]. split; [apply nth_error_Some; congruence|].
  now apply nth_error_nth.
Qed.

Lemma shrunk_refl (k : nat) (l : list R) : shrunk_at k l l.
Proof. split; [reflexivity|]. intros j. split; [lra | reflexivity]. Qed.

Lemma shrunk_trans (k : nat) (l1 l2 l3 : list R) :
  shrunk_at k l1 l2 -> shrunk_at k l2 l3 -> shrunk_at k l1 l3.
Proof.
  intros [HL1 H1] [HL2 H2]. split; [congruence|]. intros j.
  destruct (H1 j) as [A1 B1]. destruct (H2 j) as [A2 B2].
  split; [lra|]. intros Hj. rewrite B2, B1 by assumption. reflexivity.
Qed.

Lemma shrunk_setitem (k : nat) (l : list R) (x y : R) :
  getitem l (Z.of_nat k) = Ok x -> y <= x -> shrunk_at k l (setitem l k y).
Proof.
  intros Hget Hy. destruct (getitem_nth _ _ _ Hget) as [Hk Hx].
  split; [apply length_setitem|]. intros j.
  destruct (Nat.eq_dec k j) as [<-|Hne].
  - rewrite nth_setitem_same by assumption. split; [lra | congruence].
  - rewrite nth_setitem_other by assumption. split; [lra | reflexivity].
Qed.

Lemma bounded_shrunk (M : R) (k : nat) (l l' : list R) :
  bounded M k l -> shrunk_at k l l' -> bounded M k l'.
Proof.
  intros HB [HL HS] j Hj. rewrite HL in Hj. destruct (HB j Hj) as [A B].
  destruct (HS j) as [C D]. split; [lra|].
  intros Hjk. rewrite D by lia. auto.
Qed.

Lemma bounded_clamp (M : R) (k : nat) (l : list R) (s : R) :
  0 <= M -> bounded M k l -> getitem l (Z.of_nat k) = Ok s ->
  bounded M (S k) (setitem l k (if Rlt_dec s 0.0 then 0.0 else s)) /\
  0 <= nth k (setitem l k (if Rlt_dec s 0.0 then 0.0 else s)) 0 <= M.
Proof.
  intros HM HB Hget. destruct (getitem_nth _ _ _ Hget) as [Hk Hs].
  destruct (HB k Hk) as [Hle _].
  assert (Hc : 0 <= (if Rlt_dec s 0.0 then 0.0 else s) <= M)
    by (destruct (Rlt_dec s 0.0); lra).
  split.
  - intros j Hj. rewrite length_setitem in Hj.
    destruct (Nat.eq_dec k j) as [<-|Hne].
    + rewrite nth_setitem_same by assumption. split; [lra | intros _; lra].
    + rewrite nth_setitem_other by assumption.
      destruct (HB j Hj) as [A B]. split; [exact A|]. intros Hlt.
      apply B. lia.
  - now rewrite nth_setitem_same by assumption.
Qed.

Lemma total_loop (l : list R) (k : nat) (t : R) :
  (k <= length l)%nat ->
  for_each (range (Z.of_nat k))
    (fun t file_id => s <- getitem l file_id ;; Ok (t + s)) t
  = Ok (fold_left Rplus (firstn k l) t).
Proof.
  induction k as [|k IH]; intros Hk; [reflexivity|].
  destruct (nth_error l k) as [x|] eqn:E;
    [|apply nth_error_None in E; lia].
  rewrite (firstn_succ_snoc _ _ _ E), fold_left_app.
  rewrite range_succ, for_each_app, IH by lia. cbn [bind for_each fold_left].
  rewrite getitem_of_nat, E. reflexivity.
Qed.

Lemma fold_left_Rplus_bounds (M : R) (l : list R) (t : R) :
  (forall j, (j < length l)%nat -> 0 <= nth j l 0 <= M) ->
  t <= fold_left Rplus l t <= t + INR (length l) * M.
Proof.
  revert t. induction l as [|x l IH]; intros t H.
  - simpl. lra.
  - assert (Hx : 0 <= x <= M) by (apply (H 0%nat); simpl; lia).
    assert (Hl : forall j, (j < length l)%nat -> 0 <= nth j l 0 <= M)
      by (intros j Hj; apply (H (S j)); simpl; lia).
    specialize (IH (t + x) Hl).
    cbn [fold_left]. change (length (x :: l)) with (S (length l)).
    rewrite S_INR. lra.
Qed.

Ltac bind_inv H :=
  match type of H with
  | bind ?m _ = Ok _ =>
      let x := fresh "x" in
      let E := fresh "E" in
      destruct m as [x|] eqn:E; cbn [bind] in H; [|discriminate H]
  end.

Ltac bind_inv_as H x E :=
  match type of H with
  | bind ?m _ = Ok _ =>
      destruct m as [x|] eqn:E; cbn [bind] in H; [|discriminate H]
  end.

Lemma stretch_same {A : Type} (l : list A) : stretch (length l) l = l.
Proof. unfold stretch. now rewrite Nat.eqb_refl. Qed.

Lemma np_sub_vec_same (u v : vector) :
  length u = length v -> np_sub_vec u v = Ok (vec_sub u v).
Proof.
  intros H. unfold np_sub_vec, broadcast_dim. rewrite H, Nat.eqb_refl.
  rewrite stretch_same. rewrite <- H. now rewrite stretch_same.
Qed.

Lemma shape_rectangular (r c : nat) (M : matrix) :
  has_shape (S r) c M -> rectangular M = true /\ ncols M = c.
Proof.
  intros [HL HR]. destruct M as [|row M]; [discriminate|].
  assert (Hc : ncols (row :: M) = c) by (inversion HR; assumption).
  split; [|exact Hc]. unfold rectangular. rewrite Hc.
  apply forallb_forall. intros x Hx. rewrite Forall_forall in HR.
  apply Nat.eqb_eq. now apply HR.
Qed.

Lemma np_sub_mat_same (r c : nat) (A B : matrix) :
  has_shape (S r) c A -> has_shape (S r) c B ->
  exists D, np_sub_mat A B = Ok D.
Proof.
  intros HA HB.
  destruct (shape_rectangular _ _ _ HA) as [_ HcA].
  destruct (shape_rectangular _ _ _ HB) as [HrB HcB].
  unfold np_sub_mat. rewrite HrB. cbn [negb].
  destruct HA as [HLA _]. destruct HB as [HLB _].
  destruct B as [|b B]; [discriminate|].
  rewrite HcA, HcB, HLA, HLB. unfold broadcast_dim. rewrite !Nat.eqb_refl.
  eauto.
Qed.

Section Scoring.

Variable get_pose_from_matrix : matrix -> list R.
Variable linalg_norm_ord2 : matrix -> R.


(** One test case lowers the two scores of its file by the penalty, or
    leaves them; the other files' scores stay as they are. *)
Lemma score_case_effect (robot : pandaEnv) (dhp : list DHParameter)
    (fk : fk_dict) (k : nat) (penalty : R) (st st' : score_state) (i : Z) :
  0 <= penalty ->
  score_case get_pose_from_matrix linalg_norm_ord2 robot dhp fk (Z.of_nat k)
    penalty st i = Ok st' ->
  shrunk_at k (fk_score st) (fk_score st') /\
  shrunk_at k (jacobian_score st) (jacobian_score st').
Proof.
  intros Hpen H. unfold score_case in H.
  bind_inv_as H qi Eqi. bind_inv_as H yours Eyours. bind_inv_as H gpose Egpose.
  bind_inv_as H pdiff Epdiff. bind_inv_as H st1 Est1.
  bind_inv_as H gj Egj. bind_inv_as H jdiff Ejdiff.
  assert (H1 : shrunk_at k (fk_score st) (fk_score st1) /\
               jacobian_score st1 = jacobian_score st).
  { destruct (Rgt_dec _ FK_ERROR_THRESH).
    - bind_inv Est1. bind_inv Est1. injection Est1 as <-.
      cbn [fk_score jacobian_score].
      rewrite Nat2Z.id. split; [|reflexivity].
      eapply shrunk_setitem; [eassumption | lra].
    - injection Est1 as <-. split; [apply shrunk_refl | reflexivity]. }
  destruct H1 as [Hfk Hjac]. rewrite <- Hjac.
  destruct (Rgt_dec _ JACOBIAN_ERROR_THRESH).
  - bind_inv H. bind_inv H. injection H as <-. cbn [fk_score jacobian_score].
    rewrite Nat2Z.id. split; [exact Hfk|].
    eapply shrunk_setitem; [eassumption | lra].
  - injection H as <-. split; [exact Hfk | apply shrunk_refl].
Qed.

Lemma score_cases_effect (robot : pandaEnv) (dhp : list DHParameter)
    (fk : fk_dict) (k : nat) (penalty : R) (cases : list Z)
    (st st' : score_state) :
  0 <= penalty ->
  for_each cases
    (score_case get_pose_from_matrix linalg_norm_ord2 robot dhp fk (Z.of_nat k)
       penalty) st = Ok st' ->
  shrunk_at k (fk_score st) (fk_score st') /\
  shrunk_at k (jacobian_score st) (jacobian_score st').
Proof.
  intros Hpen. revert st. induction cases as [|i cases IH]; intros st H.
  - injection H as <-. split; apply shrunk_refl.
  - cbn [for_each] in H. bind_inv H.
    destruct (score_case_effect _ _ _ _ _ _ _ _ Hpen E) as [A B].
    destruct (IH _ H) as [C D].
    split; eapply shrunk_trans; eassumption.
Qed.

(** One file: the scores stay bounded, the file's own two scores end up
    between 0 and the per-file maximum, and that is what is reported. *)
Lemma score_file_effect (robot : pandaEnv) (dhp : list DHParameter) (n k : nat)
    (fk : fk_dict) (st st' : score_state) (r : file_report) :
  (0 < n)%nat ->
  bounded (FK_SCORE_MAX / INR n) k (fk_score st) ->
  bounded (JACOBIAN_SCORE_MAX / INR n) k (jacobian_score st) ->
  score_file get_pose_from_matrix linalg_norm_ord2 robot dhp (Z.of_nat n) st
    (Z.of_nat k, fk) = Ok (st', r) ->
  bounded (FK_SCORE_MAX / INR n) (S k) (fk_score st') /\
  bounded (JACOBIAN_SCORE_MAX / INR n) (S k) (jacobian_score st') /\
  length (fk_score st') = length (fk_score st) /\
  length (jacobian_score st') = length (jacobian_score st) /\
  report_ok n r.
Proof.
  intros Hn HBf HBj H.
  assert (HN : 0 < INR n) by (apply lt_0_INR; lia).
  assert (HMf : 0 <= FK_SCORE_MAX / INR n)
    by (unfold FK_SCORE_MAX; apply Rlt_le, Rdiv_lt_0_compat; lra).
  assert (HMj : 0 <= JACOBIAN_SCORE_MAX / INR n)
    by (unfold JACOBIAN_SCORE_MAX; apply Rlt_le, Rdiv_lt_0_compat; lra).
  unfold score_file in H. cbn [fst snd] in H.
  bind_inv H. bind_inv H.
  assert (Hpen : 0 <= x0).
  { unfold truediv in E, E0.
    destruct (Req_dec_T (IZR (Z.of_nat n)) 0); [discriminate|].
    destruct (Req_dec_T (0.3 * IZR (len (joint_poses fk))) 0) as [|Hc];
      [discriminate|].
    injection E as <-. injection E0 as <-.
    rewrite <- INR_IZR_INZ. unfold len in *. rewrite <- INR_IZR_INZ in *.
    pose proof (pos_INR (length (joint_poses fk))) as Hc0.
    apply Rlt_le, Rdiv_lt_0_compat; [|lra].
    unfold TASK1_SCORE_MAX, JACOBIAN_SCORE_MAX, FK_SCORE_MAX.
    apply Rdiv_lt_0_compat; lra. }
  bind_inv H.
  destruct (score_cases_effect _ _ _ _ _ _ _ _ Hpen E1) as [Sf Sj].
  pose proof (bounded_shrunk _ _ _ _ HBf Sf) as HBf1.
  pose proof (bounded_shrunk _ _ _ _ HBj Sj) as HBj1.
  bind_inv H. cbn [fk_score jacobian_score fk_error_cnt jacobian_error_cnt] in H.
  bind_inv H. cbn [fk_score jacobian_score fk_error_cnt jacobian_error_cnt] in H.
  rewrite Nat2Z.id in H.
  destruct (bounded_clamp _ _ _ _ HMf HBf1 E2) as [HBf2 Hf].
  destruct (bounded_clamp _ _ _ _ HMj HBj1 E3) as [HBj2 Hj].
  bind_inv H. bind_inv H. bind_inv H. bind_inv H. bind_inv H. bind_inv H.
  injection H as <- <-. cbn [fk_score jacobian_score].
  split; [exact HBf2|]. split; [exact HBj2|].
  split; [rewrite length_setitem; apply Sf|].
  split; [rewrite length_setitem; apply Sj|].
  apply getitem_nth in E4, E7. destruct E4 as [_ E4]. destruct E7 as [_ E7].
  unfold truediv in E5, E8.
  destruct (Req_dec_T (IZR (Z.of_nat n)) 0); [discriminate|].
  injection E5 as <-. injection E8 as <-.
  rewrite <- INR_IZR_INZ.
  unfold report_ok. cbn [r_fk_score r_fk_max r_jacobian_score r_jacobian_max].
  rewrite <- E4, <- E7. repeat split; try apply Hf; apply Hj.
Qed.

(** The loop over the files: every report printed is within its bounds,
    also when a later file raises; when the loop runs to the end it has
    printed one report per file and left every score within its bounds. *)
Lemma score_files_effect (robot : pandaEnv) (dhp : list DHParameter) (n : nat)
    (fs : list fk_dict) :
  (0 < n)%nat ->
  forall (k : nat) (st : score_state) (printed : list file_report),
    bounded (FK_SCORE_MAX / INR n) k (fk_score st) ->
    bounded (JACOBIAN_SCORE_MAX / INR n) k (jacobian_score st) ->
    Forall (report_ok n) printed ->
    let run := for_each_print (combine (map Z.of_nat (seq k (length fs))) fs)
                 (score_file get_pose_from_matrix linalg_norm_ord2 robot dhp
                    (Z.of_nat n)) st printed in
    Forall (report_ok n) (fst run) /\
    forall st', snd run = Ok st' ->
      bounded (FK_SCORE_MAX / INR n) (k + length fs) (fk_score st') /\
      bounded (JACOBIAN_SCORE_MAX / INR n) (k + length fs) (jacobian_score st') /\
      length (fk_score st') = length (fk_score st) /\
      length (jacobian_score st') = length (jacobian_score st) /\
      length (fst run) = (length printed + length fs)%nat.
Proof.
  intros Hn. induction fs as [|fk fs IH]; intros k st printed HBf HBj HP.
  - cbn. split; [exact HP|]. intros st' [= <-]. rewrite !Nat.add_0_r.
    split; [exact HBf|]. split; [exact HBj|].
    split; [reflexivity|]. split; reflexivity.
  - cbn [length seq map combine for_each_print].
    destruct (score_file _ _ _ _ _ _ (Z.of_nat k, fk)) as [[st1 r]|e] eqn:E.
    + destruct (score_file_effect _ _ _ _ _ _ _ _ Hn HBf HBj E)
        as (HBf1 & HBj1 & HLf & HLj & Hr).
      assert (HP1 : Forall (report_ok n) (printed ++ [r]))
        by (apply Forall_app; split; [exact HP | now constructor]).
      destruct (IH (S k) st1 (printed ++ [r]) HBf1 HBj1 HP1) as [HF HOk].
      split; [exact HF|]. intros st' Hst'.
      destruct (HOk st' Hst') as (A & B & C & D & L).
      replace (k + S (length fs))%nat with (S k + length fs)%nat by lia.
      split; [exact A|]. split; [exact B|].
      split; [congruence|]. split; [congruence|].
      rewrite L, length_app. simpl. lia.
    + cbn. split; [exact HP|]. intros st' H. discriminate H.
Qed.

Lemma bounded_total (M : R) (n : nat) (l : list R) :
  (0 < n)%nat -> length l = n -> bounded (M / INR n) n l ->
  for_each (range (Z.of_nat n))
    (fun t file_id => s <- getitem l file_id ;; Ok (t + s)) 0.0 = Ok (total l) /\
  0 <= total l <= M.
Proof.
  intros Hn HL HB. subst n. rewrite total_loop by lia.
  rewrite firstn_all. split; [reflexivity|]. unfold total.
  assert (HN : 0 < INR (length l)) by (apply lt_0_INR; lia).
  pose proof (fold_left_Rplus_bounds (M / INR (length l)) l 0.0) as Hb.
  assert (H0 : 0.0 = 0) by lra. rewrite H0 in *.
  replace (0 + INR (length l) * (M / INR (length l))) with M in Hb
    by (field; lra).
  apply Hb. intros j Hj. destruct (HB j) as [A B]; [lia|].
  split; [apply B; lia | exact A].
Qed.

(** What [score_fk] prints: every per-file report has its two scores between
    0 and the per-file maximum; a run that reaches the end has printed one
    report per file and a total between 0 and the sum of the two maxima. *)
Lemma score_fk_reports (robot : pandaEnv) (files : list fk_dict) :
  let run := score_fk get_pose_from_matrix linalg_norm_ord2 robot files in
  Forall (report_ok (length files)) (fst run) /\
  forall total_score max_score : R,
    snd run = Ok (total_score, max_score) ->
    length (fst run) = length files /\
    0 <= total_score <= max_score /\
    max_score = FK_SCORE_MAX + JACOBIAN_SCORE_MAX.
Proof.
  unfold score_fk. cbn [fst snd].
  destruct files as [|f files].
  - cbn. split; [constructor|]. intros t m [= <- <-].
    unfold FK_SCORE_MAX, JACOBIAN_SCORE_MAX.
    split; [reflexivity|]. split; [lra | reflexivity].
  - set (fs := f :: files). set (n := length fs).
    assert (Hn : (0 < n)%nat) by (subst n fs; simpl; lia).
    unfold enumerate, len. rewrite range_of_nat.
    fold n. rewrite <- INR_IZR_INZ.
    assert (HBf0 : bounded (FK_SCORE_MAX / INR n) 0
                     (repeat (FK_SCORE_MAX / INR n) n)).
    { intros j Hj. rewrite repeat_length in Hj.
      rewrite nth_repeat_lt by assumption. split; [lra | lia]. }
    assert (HBj0 : bounded (JACOBIAN_SCORE_MAX / INR n) 0
                     (repeat (JACOBIAN_SCORE_MAX / INR n) n)).
    { intros j Hj. rewrite repeat_length in Hj.
      rewrite nth_repeat_lt by assumption. split; [lra | lia]. }
    destruct (score_files_effect robot get_panda_DH_params n fs Hn 0%nat
                (mkScore (repeat (FK_SCORE_MAX / INR n) n) (repeat 0%Z n)
                         (repeat (JACOBIAN_SCORE_MAX / INR n) n) (repeat 0%Z n))
                [] HBf0 HBj0 (Forall_nil _))
      as [HF HOk].
    split; [exact HF|]. intros t m H.
    bind_inv H.
    destruct (HOk x E) as (HBf & HBj & HLf & HLj & HL).
    cbn [fk_score jacobian_score] in HLf, HLj.
    rewrite repeat_length in HLf, HLj. fold n in HBf, HBj.
    cbn [Nat.add] in HBf, HBj.
    destruct (bounded_total FK_SCORE_MAX n _ Hn HLf HBf) as [Tf Bf].
    destruct (bounded_total JACOBIAN_SCORE_MAX n _ Hn HLj HBj) as [Tj Bj].
    rewrite range_of_nat in Tf, Tj.
    rewrite Tf in H. cbn [bind] in H. rewrite Tj in H. cbn [bind] in H.
    injection H as <- <-.
    split; [exact HL|]. split; [lra | reflexivity].
Qed.

(** *** The scorer runs to the end on well-formed files *)

Lemma getitem_lt {A : Type} (l : list A) (i : nat) :
  (i < length l)%nat -> exists x, getitem l (Z.of_nat i) = Ok x /\ In x l.
Proof.
  intros H. rewrite getitem_of_nat.
  destruct (nth_error l i) as [x|] eqn:E; [|apply nth_error_None in E; lia].
  exists x. split; [reflexivity|]. eapply nth_error_In; eassumption.
Qed.

Lemma for_range_invariant {S : Type} (I : S -> Prop) (body : S -> Z -> result S)
    (m : nat) :
  (forall i s, (i < m)%nat -> I s -> exists s', body s (Z.of_nat i) = Ok s' /\ I s') ->
  forall s, I s -> exists s', for_each (range (Z.of_nat m)) body s = Ok s' /\ I s'.
Proof.
  induction m as [|m IH]; intros Hbody s Hs; [exists s; split; [reflexivity | exact Hs]|].
  destruct (IH (fun i s Hi => Hbody i s (Nat.lt_lt_succ_r _ _ Hi)) s Hs)
    as (s1 & Hrun & Hs1).
  destruct (Hbody m s1 (Nat.lt_succ_diag_r m) Hs1) as (s2 & Hstep & Hs2).
  exists s2. rewrite range_succ, for_each_app, Hrun. cbn [bind for_each].
  rewrite Hstep. split; [reflexivity | exact Hs2].
Qed.

(** The pose [get_pose_from_matrix] returns has 7 components (position and
    quaternion). *)
Hypothesis pose_has_7 :
  forall A : matrix, length (get_pose_from_matrix A) = 7%nat.

Lemma score_case_runs_at (robot : pandaEnv) (fk : fk_dict) (n k i : nat)
    (penalty : R) (st : score_state) (qi gt : list R) (gj : matrix) :
  nth_error (joint_poses fk) i = Some qi -> length qi = 7%nat ->
  nth_error (poses fk) i = Some gt -> length gt = 7%nat ->
  nth_error (jacobian fk) i = Some gj -> has_shape 6 7 gj ->
  (k < n)%nat -> state_len n st ->
  exists st',
    score_case get_pose_from_matrix linalg_norm_ord2 robot get_panda_DH_params
      fk (Z.of_nat k) penalty st (Z.of_nat i) = Ok st' /\
    state_len n st'.
Proof.
  intros Hqi Hq7 Hgt Hgt7 Hgj Hgj67 Hk (L1 & L2 & L3 & L4).
  assert (Hitem : forall (A : Type) (l : list A), length l = n ->
            exists x, nth_error l k = Some x).
  { intros A l Hl. destruct (nth_error l k) as [x|] eqn:E; [eauto|].
    apply nth_error_None in E. lia. }
  destruct (Hitem _ _ L1) as [s1 Hs1]. destruct (Hitem _ _ L2) as [c1 Hc1].
  destruct (Hitem _ _ L3) as [s2 Hs2]. destruct (Hitem _ _ L4) as [c2 Hc2].
  unfold score_case. rewrite !getitem_of_nat, Hqi, Hgt, Hgj. cbn [bind].
  pose proof (your_fk_valid get_pose_from_matrix robot get_panda_DH_params qi
                eq_refl Hq7) as Hfk.
  destruct (_base_position robot) as [[x y] z] eqn:Hb.
  destruct Hfk as (J & _ & _ & HJ & _ & ->). cbn [bind fst snd].
  rewrite np_sub_vec_same by (rewrite pose_has_7; congruence). cbn [bind].
  destruct (np_sub_mat_same 5 7 J gj HJ Hgj67) as [jdiff Hjdiff].
  destruct (Rgt_dec _ FK_ERROR_THRESH).
  - rewrite Hs1, Hc1. cbn [bind]. rewrite Hjdiff. cbn [bind].
    destruct (Rgt_dec _ JACOBIAN_ERROR_THRESH).
    + cbn [fk_score fk_error_cnt jacobian_score jacobian_error_cnt].
      rewrite !getitem_of_nat, Hs2, Hc2.
      cbn [bind]. eexists. split; [reflexivity|].
      unfold state_len. cbn. rewrite !length_setitem. auto.
    + eexists. split; [reflexivity|].
      unfold state_len. cbn. rewrite !length_setitem. auto.
  - cbn [bind]. rewrite Hjdiff. cbn [bind].
    destruct (Rgt_dec _ JACOBIAN_ERROR_THRESH).
    + rewrite !getitem_of_nat, Hs2, Hc2.
      cbn [bind]. eexists. split; [reflexivity|].
      unfold state_len. cbn. rewrite !length_setitem. auto.
    + eexists. split; [reflexivity|]. unfold state_len. auto.
Qed.

Lemma score_case_runs (robot : pandaEnv) (fk : fk_dict) (n k i : nat)
    (penalty : R) (st : score_state) :
  wf_file fk -> (k < n)%nat -> (i < length (joint_poses fk))%nat ->
  state_len n st ->
  exists st',
    score_case get_pose_from_matrix linalg_norm_ord2 robot get_panda_DH_params
      fk (Z.of_nat k) penalty st (Z.of_nat i) = Ok st' /\
    state_len n st'.
Proof.
  intros (_ & Hq7 & Hposes & Hjacs & Hp7 & Hj67) Hk Hi Hst.
  rewrite Forall_forall in Hq7, Hp7, Hj67.
  destruct (nth_error (joint_poses fk) i) as [qi|] eqn:Eq;
    [|apply nth_error_None in Eq; lia].
  destruct (nth_error (poses fk) i) as [gt|] eqn:Egt;
    [|apply nth_error_None in Egt; lia].
  destruct (nth_error (jacobian fk) i) as [gj|] eqn:Egj;
    [|apply nth_error_None in Egj; lia].
  apply (score_case_runs_at robot fk n k i penalty st qi gt gj);
    try assumption.
  - apply Hq7. eapply nth_error_In; eassumption.
  - apply Hp7. eapply nth_error_In; eassumption.
  - apply Hj67. eapply nth_error_In; eassumption.
Qed.

Lemma truediv_ok (x y : R) : y <> 0 -> truediv x y = Ok (x / y).
Proof.
  intros H. unfold truediv. destruct (Req_dec_T y 0); [contradiction | reflexivity].
Qed.

Lemma score_file_runs (robot : pandaEnv) (fk : fk_dict) (n k : nat)
    (st : score_state) :
  wf_file fk -> (k < n)%nat -> state_len n st ->
  exists st' r,
    score_file get_pose_from_matrix linalg_norm_ord2 robot get_panda_DH_params
      (Z.of_nat n) st (Z.of_nat k, fk) = Ok (st', r) /\
    state_len n st'.
Proof.
  intros Hwf Hk Hst. unfold score_file, len. cbn [fst snd].
  assert (Hn : IZR (Z.of_nat n) <> 0).
  { rewrite <- INR_IZR_INZ. apply not_0_INR. lia. }
  assert (Hc : 0.3 * IZR (Z.of_nat (length (joint_poses fk))) <> 0).
  { rewrite <- INR_IZR_INZ.
    assert (0 < INR (length (joint_poses fk)))
      by (apply lt_0_INR; apply Hwf).
    lra. }
  rewrite truediv_ok by assumption. cbn [bind].
  rewrite truediv_ok by assumption. cbn [bind].
  destruct (for_range_invariant (state_len n)
              (score_case get_pose_from_matrix linalg_norm_ord2 robot
                 get_panda_DH_params fk (Z.of_nat k)
                 (TASK1_SCORE_MAX / IZR (Z.of_nat n)
                  / (0.3 * IZR (Z.of_nat (length (joint_poses fk))))))
              (length (joint_poses fk)))
    with (s := st) as (st1 & Hrun & (L1 & L2 & L3 & L4)).
  - intros i s Hi Hs. now apply score_case_runs.
  - exact Hst.
  - rewrite Hrun. cbn [bind].
    destruct (getitem_lt (fk_score st1) k ltac:(lia)) as (s1 & -> & _).
    cbn [bind fk_score fk_error_cnt jacobian_score jacobian_error_cnt].
    destruct (getitem_lt (jacobian_score st1) k ltac:(lia)) as (s2 & -> & _).
    cbn [bind fk_score fk_error_cnt jacobian_score jacobian_error_cnt].
    rewrite Nat2Z.id.
    destruct (getitem_lt (setitem (fk_score st1) k
                            (if Rlt_dec s1 0.0 then 0.0 else s1)) k)
      as (s3 & -> & _); [rewrite length_setitem; lia|].
    cbn [bind]. rewrite truediv_ok by assumption. cbn [bind].
    destruct (getitem_lt (fk_error_cnt st1) k ltac:(lia)) as (c3 & -> & _).
    destruct (getitem_lt (setitem (jacobian_score st1) k
                            (if Rlt_dec s2 0.0 then 0.0 else s2)) k)
      as (s4 & -> & _); [rewrite length_setitem; lia|].
    cbn [bind]. rewrite truediv_ok by assumption. cbn [bind].
    destruct (getitem_lt (jacobian_error_cnt st1) k ltac:(lia)) as (c4 & -> & _).
    cbn [bind]. do 2 eexists. split; [reflexivity|].
    unfold state_len. cbn. rewrite !length_setitem. auto.
Qed.

Lemma score_files_run (robot : pandaEnv) (n : nat) (fs : list fk_dict) :
  Forall wf_file fs ->
  forall (k : nat) (st : score_state) (printed : list file_report),
    (k + length fs <= n)%nat -> state_len n st ->
    exists st',
      snd (for_each_print (combine (map Z.of_nat (seq k (length fs))) fs)
             (score_file get_pose_from_matrix linalg_norm_ord2 robot
                get_panda_DH_params (Z.of_nat n)) st printed) = Ok st' /\
      state_len n st'.
Proof.
  induction 1 as [|fk fs Hwf _ IH]; intros k st printed Hk Hst.
  - exists st. split; [reflexivity | exact Hst].
  - cbn [length] in Hk. cbn [length seq map combine for_each_print].
    destruct (score_file_runs robot fk n k st Hwf ltac:(lia) Hst)
      as (st1 & r & -> & Hst1).
    apply IH; [lia | exact Hst1].
Qed.

(** On well-formed test-case files [score_fk] prints its total. *)
Lemma score_fk_runs (robot : pandaEnv) (files : list fk_dict) :
  Forall wf_file files ->
  exists total_score max_score : R,
    snd (score_fk get_pose_from_matrix linalg_norm_ord2 robot files)
    = Ok (total_score, max_score).
Proof.
  intros Hwf. unfold score_fk. cbn [snd].
  unfold enumerate, len. rewrite range_of_nat.
  set (st0 := mkScore _ _ _ _).
  assert (Hst0 : state_len (length files) st0)
    by (unfold state_len, st0; cbn; rewrite !repeat_length; auto).
  destruct (score_files_run robot (length files) files Hwf 0%nat st0 []
              (le_n _) Hst0)
    as (st' & Hrun & (L1 & _ & L3 & _)).
  rewrite Hrun. cbn [bind].
  rewrite <- (range_of_nat (length files)), !total_loop by lia.
  cbn [bind]. eauto.
Qed.

End Scoring.

(** ** Small cases of the chain *)

Lemma chain_zero (q : list R) (dh : list DHParameter) : chain 0 q dh = identity 4.
Proof. reflexivity. Qed.

Lemma chain_one (th : R) (q : list R) (p : DHParameter) (dh : list DHParameter) :
  chain 1 (th :: q) (p :: dh) = spec_T th p.
Proof.
  unfold chain, spec_product, joint_transforms.
  cbn [combine map firstn fold_left fst snd].
  rewrite identity_hom, spec_T_hom, matmul_hom. unfold hom. list_eq; ring.
Qed.

Lemma for_each_compose_error (pose : list R) (dh : list DHParameter)
    (xs : list Z) (T : matrix) (e : exn) :
  for_each xs (compose_joint pose dh) T = Raise e -> e = IndexError.
Proof.
  revert T. induction xs as [|x xs IH]; intros T H; [discriminate|].
  cbn [for_each] in H.
  destruct (compose_joint_result pose dh T x) as [Hc|(th & p & _ & _ & Hc)];
    rewrite Hc in H; cbn [bind] in H; [congruence | eauto].
Qed.

Lemma transform_error_kind (level : Z) (pose : list R) (dh : list DHParameter)
    (flag : bool) (e : exn) :
  get_transform_to_base_from level pose dh flag = Raise e -> e = IndexError.
Proof.
  unfold get_transform_to_base_from. intros H.
  destruct (for_each (range level) (compose_joint pose dh) (identity 4))
    as [T|e'] eqn:E; cbn [bind] in H.
  - destruct (if negb (level =? len dh)%Z then true else flag);
      [|discriminate].
    destruct (compose_joint_result pose dh T level) as [Hc|(th & p & _ & _ & Hc)];
      rewrite Hc in H; congruence.
  - injection H as <-. eapply for_each_compose_error; eassumption.
Qed.

Lemma transform_flag_irrelevant (level : Z) (pose : list R)
    (dh : list DHParameter) (flag : bool) :
  level <> len dh ->
  get_transform_to_base_from level pose dh flag =
  get_transform_to_base_from level pose dh true.
Proof.
  intros H. unfold get_transform_to_base_from.
  replace (level =? len dh)%Z with false by (symmetry; now apply Z.eqb_neq).
  reflexivity.
Qed.

(** With fewer angles than the level needs, the builder raises IndexError:
    at a level up to the length of the table it reads [pose[len(pose)]]. *)
Lemma transform_beyond_angles (level : nat) (pose : list R)
    (dh : list DHParameter) (flag : bool) :
  (level <= length dh)%nat ->
  (length pose < level)%nat \/
  (length pose = level /\ level < length dh)%nat ->
  get_transform_to_base_from (Z.of_nat level) pose dh flag = Raise IndexError.
Proof.
  intros Hd Hshort.
  destruct (get_transform_to_base_from (Z.of_nat level) pose dh flag)
    as [T|e] eqn:H; [|f_equal; eapply transform_error_kind; eassumption].
  exfalso. unfold get_transform_to_base_from in H.
  destruct (for_each (range (Z.of_nat level)) (compose_joint pose dh)
              (identity 4)) as [T0|e] eqn:E; cbn [bind] in H; [|discriminate].
  destruct Hshort as [Hlt|[Heq Hlt]].
  - assert (Hin : In (Z.of_nat (length pose)) (range (Z.of_nat level))).
    { rewrite range_of_nat. apply in_map, in_seq. lia. }
    clear H. revert T0 E Hin. generalize (identity 4).
    induction (range (Z.of_nat level)) as [|x xs IH]; intros M M0 E Hin;
      [destruct Hin|].
    cbn [for_each] in E.
    destruct (compose_joint_result pose dh M x) as [Hc|(th & p & Hq & _ & Hc)];
      rewrite Hc in E; cbn [bind] in E; [discriminate|].
    destruct Hin as [Hx|Hin]; [subst x | eapply IH; eassumption].
    assert (Hex : exists y, getitem pose (Z.of_nat (length pose)) = Ok y)
      by eauto.
    apply getitem_ok_iff in Hex. unfold len in Hex. lia.
  - replace (Z.of_nat level =? len dh)%Z with false in H
      by (symmetry; apply Z.eqb_neq; unfold len; lia).
    cbn [negb] in H.
    destruct (compose_joint_result pose dh T0 (Z.of_nat level))
      as [Hc|(th & p & Hq & _ & Hc)]; rewrite Hc in H; [discriminate|].
    assert (Hex : exists y, getitem pose (Z.of_nat level) = Ok y) by eauto.
    apply getitem_ok_iff in Hex. unfold len in Hex. lia.
Qed.

(* ================================================================= *)
(** * The claims *)

(** ** The transform builder *)

(** C2, as stated, fails on the robot's own table: at level 0 the builder
    takes the inclusive branch and returns the transform of joint 0, whose
    translation carries the link offset 0.333. *)
Lemma transform_level_zero_counterexample :
  get_transform_to_base_from 0 (repeat 0 7) get_panda_DH_params false
  <> Ok (identity 4).
Proof.
  change 0%Z with (Z.of_nat 0).
  rewrite transform_inclusive by (simpl; lia).
  unfold get_panda_DH_params. cbn [repeat]. rewrite chain_one.
  rewrite spec_T_hom, identity_hom. cbn [a d alpha]. rewrite cos_0.
  unfold hom. intros H. injection H as _ _ _ _ _ _ H. lra.
Qed.

(** C2, amended: a request for level 0 returns the identity exactly when the
    DH table is empty (flag left at False); on a non-empty table it returns
    the per-joint matrix of joint 0 for either value of the flag, and raises
    IndexError when there is no angle for joint 0. *)
Theorem transform_level_zero :
  (forall q : list R,
     get_transform_to_base_from 0 q [] false = Ok (identity 4)) /\
  (forall (th : R) (q : list R) (p : DHParameter) (dh : list DHParameter)
          (flag : bool),
     get_transform_to_base_from 0 (th :: q) (p :: dh) flag = Ok (spec_T th p)) /\
  (forall (p : DHParameter) (dh : list DHParameter) (flag : bool),
     get_transform_to_base_from 0 [] (p :: dh) flag = Raise IndexError).
Proof.
  split; [|split].
  - intros q. reflexivity.
  - intros th q p dh flag. change 0%Z with (Z.of_nat 0).
    rewrite transform_inclusive by (simpl; lia). now rewrite chain_one.
  - intros p dh flag. reflexivity.
Qed.

(** C3, as stated, fails on an angle vector shorter than the table: with
    six angles and the robot's table of seven joints the loop reads [q[6]]
    and raises IndexError, so no product is returned. *)
Lemma transform_full_table_counterexample :
  ~ exists Ts : list matrix,
      get_transform_to_base_from (len get_panda_DH_params) (repeat 0 6)
        get_panda_DH_params false = Ok (spec_product Ts).
Proof.
  intros [Ts H]. unfold len in H.
  rewrite transform_beyond_angles in H by (simpl; lia). discriminate H.
Qed.

(** C3, amended: for an angle vector at least as long as the table, at level
    [N = len(dh)] the builder returns the product, from the identity, of
    exactly [N] per-joint matrices, the i-th one the specification's matrix
    for [q[i]] and [dh[i]]; entries of [q] from index [N] on do not
    matter. *)
Theorem transform_full_table (q : list R) (dh : list DHParameter) :
  (length dh <= length q)%nat ->
  exists Ts : list matrix,
    length Ts = length dh /\
    (forall i, (i < length dh)%nat ->
       nth_error Ts i = Some (spec_T (nth i q 0) (nth i dh (mkDH 0 0 0)))) /\
    get_transform_to_base_from (len dh) q dh false = Ok (spec_product Ts) /\
    forall q' : list R,
      firstn (length dh) q' = firstn (length dh) q ->
      get_transform_to_base_from (len dh) q' dh false =
      get_transform_to_base_from (len dh) q dh false.
Proof.
  intros Hq. exists (firstn (length dh) (joint_transforms q dh)).
  split; [|split; [|split]].
  - rewrite length_firstn, length_joint_transforms. lia.
  - intros i Hi. rewrite nth_error_firstn.
    replace (i <? length dh)%nat with true
      by (symmetry; apply Nat.ltb_lt; exact Hi).
    apply joint_transforms_nth; apply nth_error_nth'; lia.
  - now apply transform_full.
  - intros q' Hq'.
    assert (Hlen : (length dh <= length q')%nat).
    { apply (f_equal (@length R)) in Hq'. rewrite !length_firstn in Hq'. lia. }
    rewrite !transform_full by assumption. f_equal. now apply chain_local.
Qed.

Lemma transform_full_table_witness :
  exists Ts : list matrix,
    length Ts = 7%nat /\
    get_transform_to_base_from 7 (repeat 0 7) get_panda_DH_params false
      = Ok (spec_product Ts).
Proof.
  destruct (transform_full_table (repeat 0 7) get_panda_DH_params)
    as (Ts & HL & _ & HT & _); [simpl; lia|].
  exists Ts. split; [exact HL | exact HT].
Defined.

(** C8, as stated, fails on an angle vector that does not reach the level:
    level 3 is below the length of the robot's table, but with three angles
    the inclusive branch reads [pose[3]] and raises IndexError. *)
Lemma transform_below_table_counterexample :
  (0 <= 3 < len get_panda_DH_params)%Z /\
  ~ exists T : matrix,
      get_transform_to_base_from 3 [0; 0; 0] get_panda_DH_params false = Ok T.
Proof.
  split; [unfold len; simpl; lia|].
  intros [T H]. change 3%Z with (Z.of_nat 3) in H.
  rewrite transform_beyond_angles in H by (simpl; lia). discriminate H.
Qed.

(** C8, amended: for [0 <= level < len(DH_params)] and [level < len(pose)]
    the builder returns the product of the [level + 1] per-joint matrices of
    joints [0 .. level]; whatever the pose, the flag the caller passes makes
    no difference; and the angle of joint [level] does change the result. *)
Theorem transform_below_table_includes_level (dh : list DHParameter) (level : Z) :
  (0 <= level < len dh)%Z ->
  (forall (pose : list R) (flag : bool),
     (level < len pose)%Z ->
     get_transform_to_base_from level pose dh flag
       = Ok (spec_product (firstn (S (Z.to_nat level)) (joint_transforms pose dh))) /\
     length (firstn (S (Z.to_nat level)) (joint_transforms pose dh))
       = S (Z.to_nat level)) /\
  (forall (pose : list R) (flag : bool),
     get_transform_to_base_from level pose dh flag =
     get_transform_to_base_from level pose dh true) /\
  exists pose1 pose2 : list R,
    length pose1 = length dh /\ length pose2 = length dh /\
    (forall j, j <> Z.to_nat level -> nth_error pose1 j = nth_error pose2 j) /\
    forall flag : bool,
      get_transform_to_base_from level pose1 dh flag <>
      get_transform_to_base_from level pose2 dh flag.
Proof.
  intros Hl. unfold len in Hl.
  set (k := Z.to_nat level).
  assert (Hk : level = Z.of_nat k) by (subst k; lia).
  assert (Hkd : (k < length dh)%nat) by lia.
  split; [|split].
  - intros pose flag Hp. unfold len in Hp. rewrite Hk.
    rewrite transform_inclusive by lia. split; [reflexivity|].
    rewrite length_firstn, length_joint_transforms. lia.
  - intros pose flag. apply transform_flag_irrelevant. unfold len. lia.
  - set (pre := repeat 0 k). set (post := repeat 0 (length dh - S k)).
    assert (Hpre : length pre = k) by apply repeat_length.
    assert (Hlen : forall x, length (pre ++ x :: post) = length dh).
    { intros x. rewrite length_app. cbn [length]. unfold post.
      rewrite repeat_length. lia. }
    exists (pre ++ 0 :: post), (pre ++ PI :: post).
    split; [apply Hlen|]. split; [apply Hlen|]. split.
    + intros j Hj. destruct (Nat.lt_ge_cases j k) as [Hlt|Hge].
      * rewrite !nth_error_app1 by lia. reflexivity.
      * rewrite !nth_error_app2 by lia.
        destruct (j - length pre)%nat as [|m] eqn:Em; [lia | reflexivity].
    + intros flag. rewrite Hk.
      rewrite !transform_inclusive by (rewrite ?Hlen; lia).
      intros H. injection H as H.
      now apply (chain_sensitive_to_last k pre post dh Hpre Hkd).
Qed.

Lemma transform_below_table_includes_level_witness :
  get_transform_to_base_from 3 (repeat 0 7) get_panda_DH_params false
  = Ok (spec_product
          (firstn 4 (joint_transforms (repeat 0 7) get_panda_DH_params))).
Proof.
  destruct (transform_below_table_includes_level get_panda_DH_params 3)
    as [H _]; [unfold len; simpl; lia|].
  destruct (H (repeat 0 7) false) as [HT _]; [unfold len; simpl; lia|].
  exact HT.
Defined.

(** C9, as stated, fails when the pose vector is shorter than the table:
    level 0 is below the length of the robot's table, yet with no angle at
    all [pose[0]] is out of range. *)
Lemma transform_in_bounds_counterexample :
  ~ ((exists T, get_transform_to_base_from 0 [] get_panda_DH_params false = Ok T)
     <-> ((0 < len get_panda_DH_params)%Z \/
          (0%Z = len get_panda_DH_params /\ false = false))).
Proof.
  intros [_ H]. destruct H as [T HT]; [left; reflexivity|]. discriminate HT.
Qed.

(** C9, amended: for a pose vector at least as long as the table and a level
    not below [-len(DH_params)], the indexing inside the builder is in bounds
    exactly when [level < len(DH_params)], or [level == len(DH_params)] with
    the flag False; an out-of-range index is the only way the builder fails;
    a call at [level == len(DH_params)] with the flag True raises IndexError;
    and with seven DH entries and seven angles the calls the program makes
    (levels 0..6 from calc_Z and calc_P, level 7 with the default flag from
    your_fk) all succeed, as does [your_fk] itself. *)
Theorem transform_in_bounds (get_pose_from_matrix : matrix -> list R)
    (pose : list R) (dh : list DHParameter) (level : Z) (flag : bool) :
  (- len dh <= level)%Z -> (length dh <= length pose)%nat ->
  ((exists T, get_transform_to_base_from level pose dh flag = Ok T) <->
   ((level < len dh)%Z \/ (level = len dh /\ flag = false))) /\
  (forall e, get_transform_to_base_from level pose dh flag = Raise e ->
             e = IndexError) /\
  get_transform_to_base_from (len dh) pose dh true = Raise IndexError /\
  (forall (robot : pandaEnv) (dh7 : list DHParameter) (q7 : list R),
     length dh7 = 7%nat -> length q7 = 7%nat ->
     (forall i, (0 <= i < 7)%Z ->
        exists T, get_transform_to_base_from i q7 dh7 false = Ok T) /\
     (exists T, get_transform_to_base_from 7 q7 dh7 false = Ok T) /\
     (exists r, your_fk get_pose_from_matrix robot dh7 q7 = Ok r)).
Proof.
  intros Hl Hq. split; [|split; [|split]].
  - now apply in_bounds_characterisation.
  - intros e. apply transform_error_kind.
  - now apply transform_past_table.
  - intros robot dh7 q7 Hd7 Hq7. split; [|split].
    + intros i Hi.
      apply in_bounds_characterisation; unfold len; rewrite ?Hd7; lia.
    + apply in_bounds_characterisation; unfold len; rewrite ?Hd7; lia.
    + pose proof (your_fk_valid get_pose_from_matrix robot dh7 q7 Hd7 Hq7) as H.
      destruct (_base_position robot) as [[x y] z].
      destruct H as (J & _ & _ & _ & _ & H). eauto.
Qed.

Lemma transform_in_bounds_witness :
  (exists T, get_transform_to_base_from (-1) (repeat 0 7)
               get_panda_DH_params false = Ok T) /\
  get_transform_to_base_from 7 (repeat 0 7) get_panda_DH_params true
    = Raise IndexError.
Proof.
  destruct (transform_in_bounds (fun _ => []) (repeat 0 7)
              get_panda_DH_params (-1) false)
    as (Hiff & _ & Hpast & _);
    [unfold len; simpl; lia | simpl; lia |].
  split; [|exact Hpast].
  apply Hiff. left. unfold len. simpl. lia.
Defined.

(** ** The Jacobian *)

(** C1, as stated, fails on the robot's own table at the zero configuration:
    the angular block of column 1 is the z axis of the frame after joint 1,
    which is the world y axis, not the z axis of the frame before it. *)
Lemma jacobian_exclusive_frame_counterexample :
  exists J,
    construct_jacobian 7 (repeat 0 7) get_panda_DH_params (identity 4) = Ok J /\
    axis_lever_column (identity 4)
      (chain 7 (repeat 0 7) get_panda_DH_params)
      (chain 1 (repeat 0 7) get_panda_DH_params) <> Ok (col 1 J).
Proof.
  destruct (filled_jacobian (repeat 0 7) get_panda_DH_params
              (identity 4))
    as (J & HJ & _ & Hcols);
    [apply rigid_shape, rigid_identity | simpl; lia |].
  exists J. split; [exact HJ|].
  destruct (Hcols 1%nat) as [_ Hang]; [simpl; lia|].
  destruct (frames_column (identity 4)
              (chain 7 (repeat 0 7) get_panda_DH_params)
              (chain 1 (repeat 0 7) get_panda_DH_params))
    as (l0 & l1 & l2 & z0 & z1 & z2 & Hcol & Hz & _);
    [apply rigid_shape, rigid_identity | apply rigid_chain | apply rigid_chain |].
  rewrite Hcol. intros Heq. injection Heq as Heq.
  unfold angular_block in Hang. rewrite <- Heq in Hang. cbn [skipn] in Hang.
  rewrite <- Hz in Hang. revert Hang.
  unfold get_panda_DH_params. cbn [repeat].
  rewrite (chain_succ _ _ 1 0 (mkDH 0 0 (- PI / 2))) by reflexivity.
  rewrite chain_one, !spec_T_hom, identity_hom, !matmul_hom.
  cbn [a d alpha]. replace (- PI / 2) with (- (PI / 2)) by field.
  rewrite cos_neg, sin_neg, cos_PI2, sin_PI2, cos_0, sin_0.
  unfold z_axis, hom. cbn. intros H. injection H as _ _ H. lra.
Qed.

(** C1, amended: for a [4 x 4] base pose and a table no longer than the
    angle vector, [construct_jacobian(len(dh), q, dh, basePose)] returns a
    [6 x len(dh)] matrix whose column [i] is [[Z_i x P_i ; Z_i]], where [Z_i]
    is the z column of the rotation block of [basePose . T_0 ... T_i] (joints
    0..i inclusive) and [P_i] is the position of
    [basePose . T_0 ... T_(N-1)] minus the position of
    [basePose . T_0 ... T_i]. *)
Theorem jacobian_column_is_axis_cross_lever (q : list R)
    (dh : list DHParameter) (base : matrix) :
  has_shape 4 4 base -> (length dh <= length q)%nat ->
  exists J,
    construct_jacobian (len dh) q dh base = Ok J /\
    has_shape 6 (length dh) J /\
    forall i, (i < length dh)%nat ->
      axis_lever_column base
        (spec_product (firstn (length dh) (joint_transforms q dh)))
        (spec_product (firstn (S i) (joint_transforms q dh)))
      = Ok (col i J).
Proof.
  intros HB Hq.
  destruct (filled_jacobian q dh base HB Hq) as (J & HJ & HS & Hcols).
  exists J. split; [exact HJ|]. split; [exact HS|].
  intros i Hi. apply (Hcols i Hi).
Qed.

Lemma jacobian_column_is_axis_cross_lever_witness :
  exists J,
    construct_jacobian 7 (repeat 0 7) get_panda_DH_params (identity 4) = Ok J /\
    has_shape 6 7 J.
Proof.
  destruct (jacobian_column_is_axis_cross_lever (repeat 0 7)
              get_panda_DH_params (identity 4))
    as (J & HJ & HS & _).
  - split; [reflexivity|]. repeat constructor.
  - simpl. lia.
  - exists J. split; [exact HJ | exact HS].
Defined.

(** ** The entry point *)

(** C4: with a DH table or an angle vector that does not have 7 entries
    [your_fk] raises AssertionError, whatever the later steps would have done
    with such inputs, and returns no value; with 7 entries in both it returns
    a pose together with a [6 x 7] Jacobian. *)
Theorem your_fk_checks_dimensions (get_pose_from_matrix : matrix -> list R)
    (robot : pandaEnv) (dh : list DHParameter) (q : list R) :
  (length dh <> 7%nat \/ length q <> 7%nat ->
   your_fk get_pose_from_matrix robot dh q = Raise AssertionError) /\
  (length dh = 7%nat -> length q = 7%nat ->
   exists (pose : list R) (J : matrix),
     your_fk get_pose_from_matrix robot dh q = Ok (pose, J) /\
     has_shape 6 7 J).
Proof.
  split.
  - apply your_fk_rejects.
  - intros Hd Hq.
    pose proof (your_fk_valid get_pose_from_matrix robot dh q Hd Hq) as H.
    destruct (_base_position robot) as [[x y] z].
    destruct H as (J & _ & _ & HS & _ & H). eauto.
Qed.

Lemma your_fk_checks_dimensions_witness :
  your_fk (fun _ => []) (mkPandaEnv 0 1 (0, 0, 0.625)) get_panda_DH_params
    (repeat 0 6) = Raise AssertionError /\
  exists (pose : list R) (J : matrix),
    your_fk (fun _ => []) (mkPandaEnv 0 1 (0, 0, 0.625)) get_panda_DH_params
      (repeat 0 7) = Ok (pose, J) /\
    has_shape 6 7 J.
Proof.
  split.
  - apply (proj1 (your_fk_checks_dimensions (fun _ => [])
                    (mkPandaEnv 0 1 (0, 0, 0.625)) get_panda_DH_params
                    (repeat 0 6))).
    right. simpl. lia.
  - apply (proj2 (your_fk_checks_dimensions (fun _ => [])
                    (mkPandaEnv 0 1 (0, 0, 0.625)) get_panda_DH_params
                    (repeat 0 7))); reflexivity.
Defined.

(** C5: for a valid 7-joint input the adjustment replaces the rotation
    block of the end-effector transform [A] by its product with the fixed
    rotation about z and leaves the translation column and the bottom row of
    [A] as they were; the pose is read off the adjusted matrix, while the
    Jacobian returned is the one [construct_jacobian] builds from the base
    transform and the chain, in which the adjustment takes no part. *)
Theorem adjustment_is_confined_to_rotation_block
    (get_pose_from_matrix : matrix -> list R)
    (robot : pandaEnv) (dh : list DHParameter) (q : list R) :
  length dh = 7%nat -> length q = 7%nat ->
  let base_pos := _base_position robot in
  let base_pose :=
    [fst (fst base_pos); snd (fst base_pos); snd base_pos] ++ [0; 0; 0; 1] in
  exists (A B J : matrix),
    end_effector_transform base_pose q dh = Ok A /\
    get_matrix_from_pose base_pose = Ok B /\
    construct_jacobian (len dh) q dh B = Ok J /\
    your_fk get_pose_from_matrix robot dh q
      = Ok (get_pose_from_matrix (apply_adjustment A), J) /\
    col 3 (apply_adjustment A) = col 3 A /\
    nth 3 (apply_adjustment A) [] = nth 3 A [] /\
    block 3 3 (apply_adjustment A)
      = block 3 3 A @ from_rotvec_z_as_matrix (-0.785398163397).
Proof.
  intros Hd Hq.
  pose proof (your_fk_valid get_pose_from_matrix robot dh q Hd Hq) as H.
  destruct (_base_position robot) as [[x y] z]. cbn [fst snd].
  destruct H as (J & HA & HJ & _ & _ & Hfk).
  exists (hom 1 0 0 0 1 0 0 0 1 x y z @ chain 7 q dh),
         (hom 1 0 0 0 1 0 0 0 1 x y z), J.
  split; [exact HA|]. split; [apply base_transform|]. split; [exact HJ|].
  split; [exact Hfk|].
  assert (HS : has_shape 4 4 (hom 1 0 0 0 1 0 0 0 1 x y z @ chain 7 q dh)).
  { apply rigid_shape, rigid_matmul;
      [apply rigid_translation | apply rigid_chain]. }
  destruct (apply_adjustment_frame _ HS) as (Hc & Hr & Hb & _).
  split; [exact Hc|]. split; [exact Hr | exact Hb].
Qed.

Lemma adjustment_is_confined_to_rotation_block_witness :
  exists (A J : matrix),
    your_fk (fun M => col 3 M) (mkPandaEnv 0 1 (0, 0, 0.625))
      get_panda_DH_params (repeat 0 7)
      = Ok (col 3 (apply_adjustment A), J) /\
    col 3 (apply_adjustment A) = col 3 A.
Proof.
  destruct (adjustment_is_confined_to_rotation_block (fun M => col 3 M)
              (mkPandaEnv 0 1 (0, 0, 0.625)) get_panda_DH_params (repeat 0 7))
    as (A & B & J & _ & _ & _ & Hfk & Hc & _); [reflexivity | reflexivity |].
  exists A, J. split; [exact Hfk | exact Hc].
Defined.

(** C6: for a valid 7-joint input every column of the Jacobian returned by
    [your_fk] has an angular block (rows 3-5) of Euclidean norm 1. *)
Theorem jacobian_angular_block_is_unit
    (get_pose_from_matrix : matrix -> list R)
    (robot : pandaEnv) (dh : list DHParameter) (q : list R) :
  length dh = 7%nat -> length q = 7%nat ->
  exists (pose : list R) (J : matrix),
    your_fk get_pose_from_matrix robot dh q = Ok (pose, J) /\
    forall i, (i < 7)%nat -> norm2 (angular_block J i) = 1.
Proof.
  intros Hd Hq.
  pose proof (your_fk_valid get_pose_from_matrix robot dh q Hd Hq) as H.
  destruct (_base_position robot) as [[x y] z].
  destruct H as (J & _ & _ & _ & Hcols & Hfk).
  do 2 eexists. split; [exact Hfk|].
  intros i Hi. destruct (Hcols i Hi) as [_ ->].
  apply z_axis_unit, rigid_matmul; [apply rigid_translation | apply rigid_chain].
Qed.

Lemma jacobian_angular_block_is_unit_witness :
  exists (pose : list R) (J : matrix),
    your_fk (fun _ => []) (mkPandaEnv 0 1 (0, 0, 0.625))
      get_panda_DH_params (repeat 0 7) = Ok (pose, J) /\
    norm2 (angular_block J 6) = 1.
Proof.
  destruct (jacobian_angular_block_is_unit (fun _ => [])
              (mkPandaEnv 0 1 (0, 0, 0.625)) get_panda_DH_params (repeat 0 7))
    as (pose & J & Hfk & Hn); [reflexivity | reflexivity |].
  exists pose, J. split; [exact Hfk|]. apply Hn. lia.
Defined.

(** ** The scorer *)



(* ================================================================= *)
(** * Further properties of the code *)

(** ** get_transform_to_base_from *)

Lemma identity_spec_T (th : R) (p : DHParameter) :
  identity 4 @ spec_T th p = spec_T th p.
Proof.
  rewrite identity_hom, spec_T_hom, matmul_hom. unfold hom. list_eq; ring.
Qed.


Lemma for_each_compose_in_bounds (pose : list R) (dh : list DHParameter)
    (xs : list Z) (T T' : matrix) :
  for_each xs (compose_joint pose dh) T = Ok T' ->
  Forall (fun x => (- len pose <= x < len pose)%Z /\
                   (- len dh <= x < len dh)%Z) xs.
Proof.
  revert T. induction xs as [|x xs IH]; intros T H; [constructor|].
  cbn [for_each] in H.
  destruct (compose_joint_result pose dh T x) as [Hc|(th & p & Hq & Hp & Hc)];
    rewrite Hc in H; cbn [bind] in H; [discriminate|].
  constructor; [|eapply IH; eassumption].
  split; apply getitem_ok_iff; eauto.
Qed.



Lemma transform_beyond_table (level : Z) (pose : list R)
    (dh : list DHParameter) (flag : bool) :
  (len dh < level)%Z ->
  get_transform_to_base_from level pose dh flag = Raise IndexError.
Proof.
  intros Hl.
  destruct (get_transform_to_base_from level pose dh flag) as [T|e] eqn:H.
  - exfalso. unfold get_transform_to_base_from in H.
    destruct (for_each (range level) (compose_joint pose dh) (identity 4))
      as [T0|e] eqn:E; cbn [bind] in H; [|discriminate].
    apply for_each_compose_in_bounds in E. rewrite Forall_forall in E.
    destruct (E (len dh)) as [_ Hb]; [|lia].
    unfold range, len in *. apply in_map, in_seq. lia.
  - f_equal. eapply transform_error_kind; eassumption.
Qed.

(** X2: a level beyond the end of the table raises IndexError, whatever the
    angles and the flag: the loop reaches [DH_params[len(DH_params)]]. *)
Theorem transform_beyond_table_raises (level : Z) (pose : list R)
    (dh : list DHParameter) (flag : bool) :
  (len dh < level)%Z ->
  get_transform_to_base_from level pose dh flag = Raise IndexError.
Proof. apply transform_beyond_table. Qed.

Lemma transform_beyond_table_raises_witness :
  get_transform_to_base_from 8 (repeat 0 9) get_panda_DH_params false
  = Raise IndexError.
Proof.
  apply transform_beyond_table_raises. unfold len. simpl. lia.
Defined.

(** X3: a negative level [-j] does not build a chain: within range it returns
    the matrix of a single joint, taking the angle [pose[-j]] and the table
    entry [DH_params[-j]] counted from the end of each list; out of range of
    either list it raises IndexError. *)
Theorem transform_negative_level_is_one_joint (j : nat) (pose : list R)
    (dh : list DHParameter) (flag : bool) :
  (0 < j)%nat ->
  ((j <= length pose)%nat -> (j <= length dh)%nat ->
   get_transform_to_base_from (- Z.of_nat j) pose dh flag
   = Ok (spec_T (nth (length pose - j) pose 0)
                (nth (length dh - j) dh (mkDH 0 0 0)))) /\
  ((length pose < j)%nat \/ (length dh < j)%nat ->
   get_transform_to_base_from (- Z.of_nat j) pose dh flag = Raise IndexError).
Proof.
  intros Hj.
  assert (Hunfold :
    get_transform_to_base_from (- Z.of_nat j) pose dh flag
    = compose_joint pose dh (identity 4) (- Z.of_nat j)).
  { unfold get_transform_to_base_from. rewrite range_nonpos by lia.
    cbn [for_each bind].
    replace (- Z.of_nat j =? len dh)%Z with false
      by (symmetry; apply Z.eqb_neq; unfold len; lia).
    reflexivity. }
  rewrite Hunfold. split.
  - intros Hp Hd. unfold compose_joint.
    rewrite !getitem_negative by lia. unfold len.
    replace (Z.of_nat (length pose) + - Z.of_nat j <? 0)%Z with false
      by (symmetry; apply Z.ltb_ge; lia).
    replace (Z.of_nat (length dh) + - Z.of_nat j <? 0)%Z with false
      by (symmetry; apply Z.ltb_ge; lia).
    replace (Z.to_nat (Z.of_nat (length pose) + - Z.of_nat j))
      with (length pose - j)%nat by lia.
    replace (Z.to_nat (Z.of_nat (length dh) + - Z.of_nat j))
      with (length dh - j)%nat by lia.
    rewrite (nth_error_nth' pose 0) by lia.
    rewrite (nth_error_nth' dh (mkDH 0 0 0)) by lia.
    cbn [bind]. rewrite modified_dh_matrix_is_spec_T.
    now rewrite identity_spec_T.
  - intros Hout.
    destruct (compose_joint_result pose dh (identity 4) (- Z.of_nat j))
      as [Hc|(th & p & Hq & Hp & _)]; [exact Hc|].
    exfalso.
    assert (Hq' : exists x, getitem pose (- Z.of_nat j) = Ok x) by eauto.
    assert (Hp' : exists x, getitem dh (- Z.of_nat j) = Ok x) by eauto.
    apply getitem_ok_iff in Hq', Hp'. unfold len in *. lia.
Qed.

Lemma transform_negative_level_is_one_joint_witness :
  get_transform_to_base_from (-1) (repeat 0 7) get_panda_DH_params false
  = Ok (spec_T 0 (mkDH 0.088 0.07 (PI / 2))).
Proof.
  apply (proj1 (transform_negative_level_is_one_joint 1 (repeat 0 7)
                  get_panda_DH_params false ltac:(lia))); simpl; lia.
Defined.

(** X4: Below the end of the table, going one level further multiplies one more
    per-joint matrix onto the right of the previous level's transform. *)
Theorem transform_extends_by_one_joint (k : nat) (pose : list R)
    (dh : list DHParameter) (flag flag' : bool) :
  (S k < length dh)%nat -> (S k < length pose)%nat ->
  exists T : matrix,
    get_transform_to_base_from (Z.of_nat k) pose dh flag = Ok T /\
    get_transform_to_base_from (Z.of_nat k + 1) pose dh flag'
    = Ok (T @ spec_T (nth (S k) pose 0) (nth (S k) dh (mkDH 0 0 0))).
Proof.
  intros Hd Hp. exists (chain (S k) pose dh).
  split; [apply transform_inclusive; lia|].
  replace (Z.of_nat k + 1)%Z with (Z.of_nat (S k)) by lia.
  rewrite transform_inclusive by lia. f_equal.
  apply chain_succ; apply nth_error_nth'; lia.
Qed.

Lemma transform_extends_by_one_joint_witness :
  exists T : matrix,
    get_transform_to_base_from 2 (repeat 0 7) get_panda_DH_params false = Ok T /\
    get_transform_to_base_from 3 (repeat 0 7) get_panda_DH_params false
    = Ok (T @ spec_T 0 (mkDH 0.0825 0 (PI / 2))).
Proof.
  apply (transform_extends_by_one_joint 2 (repeat 0 7) get_panda_DH_params
           false false); simpl; lia.
Defined.

(** X5: On a non-empty table the level of the last joint and the level of the
    whole table give the same transform: at [len - 1] the inclusive branch
    adds the joint that the loop adds at [len]. *)
Theorem transform_last_level_is_full_chain (pose : list R)
    (dh : list DHParameter) (flag : bool) :
  (0 < length dh)%nat -> (length dh <= length pose)%nat ->
  get_transform_to_base_from (len dh - 1) pose dh flag =
  get_transform_to_base_from (len dh) pose dh false.
Proof.
  intros Hd Hp. unfold len at 1.
  replace (Z.of_nat (length dh) - 1)%Z with (Z.of_nat (length dh - 1)) by lia.
  rewrite transform_inclusive, transform_full by lia.
  replace (S (length dh - 1)) with (length dh) by lia. reflexivity.
Qed.

Lemma transform_last_level_is_full_chain_witness :
  get_transform_to_base_from 6 (repeat 0 7) get_panda_DH_params true =
  get_transform_to_base_from 7 (repeat 0 7) get_panda_DH_params false.
Proof.
  apply (transform_last_level_is_full_chain (repeat 0 7) get_panda_DH_params
           true); simpl; lia.
Defined.

(** X6: Below the end of the table the result, value or exception, depends on
    the angles [pose[0 .. level]] only. *)
Theorem transform_ignores_later_angles (k : nat) (pose pose' : list R)
    (dh : list DHParameter) (flag : bool) :
  (k < length dh)%nat ->
  firstn (S k) pose' = firstn (S k) pose ->
  get_transform_to_base_from (Z.of_nat k) pose' dh flag =
  get_transform_to_base_from (Z.of_nat k) pose dh flag.
Proof.
  intros Hd Hf.
  destruct (Nat.lt_ge_cases k (length pose)) as [Hlt|Hge].
  - assert (Hlt' : (k < length pose')%nat).
    { apply (f_equal (@length R)) in Hf. rewrite !length_firstn in Hf. lia. }
    rewrite !transform_inclusive by lia. f_equal. now apply chain_local.
  - assert (Hge' : (length pose' <= k)%nat).
    { apply (f_equal (@length R)) in Hf. rewrite !length_firstn in Hf. lia. }
    rewrite !firstn_all2 in Hf by lia. now subst.
Qed.

Lemma transform_ignores_later_angles_witness :
  get_transform_to_base_from 1 [0; 0; 1; 2; 3; 4; 5] get_panda_DH_params false =
  get_transform_to_base_from 1 (repeat 0 7) get_panda_DH_params false.
Proof.
  apply (transform_ignores_later_angles 1 (repeat 0 7) [0; 0; 1; 2; 3; 4; 5]
           get_panda_DH_params false); [simpl; lia | reflexivity].
Defined.

(** ** construct_jacobian *)

Lemma range_pos_head (n : Z) :
  (0 < n)%Z -> exists rest, range n = 0%Z :: rest.
Proof.
  intros H. unfold range.
  destruct (Z.to_nat n) as [|m] eqn:E; [lia|].
  cbn [seq map]. eauto.
Qed.

Lemma for_each_ext_in {A S : Type} (xs : list A) (f g : S -> A -> result S) :
  (forall x s, In x xs -> f s x = g s x) ->
  forall s, for_each xs f s = for_each xs g s.
Proof.
  induction xs as [|x xs IH]; intros H s; [reflexivity|].
  cbn [for_each]. rewrite (H x s (or_introl eq_refl)).
  destruct (g s x) as [s'|e]; cbn [bind]; [|reflexivity].
  apply IH. intros y t Hy. apply H. now right.
Qed.

(** X7: Outside [0 < n_joints <= len(DH_params)]: a negative joint count raises
    ValueError (from [np.zeros]), a zero count returns the [6 x 0] matrix
    without looking at the angles, the table or the base pose, and with a
    [4 x 4] base pose a count beyond the table raises IndexError in the first
    round of the loop. *)
Theorem construct_jacobian_edge_cases (n_joints : Z) (q : list R)
    (dh : list DHParameter) (base : matrix) :
  ((n_joints < 0)%Z -> construct_jacobian n_joints q dh base = Raise ValueError) /\
  (n_joints = 0%Z ->
   construct_jacobian n_joints q dh base = Ok [[]; []; []; []; []; []]) /\
  ((len dh < n_joints)%Z -> has_shape 4 4 base ->
   construct_jacobian n_joints q dh base = Raise IndexError).
Proof.
  unfold construct_jacobian. split; [|split].
  - intros H. apply Z.ltb_lt in H. now rewrite H.
  - intros ->. reflexivity.
  - intros H _.
    assert (Hpos : (0 < n_joints)%Z) by (unfold len in H; lia).
    replace (n_joints <? 0)%Z with false by (symmetry; apply Z.ltb_ge; lia).
    destruct (range_pos_head n_joints Hpos) as [rest ->].
    cbn [for_each]. unfold jacobian_column at 1, calc_Z, calc_P.
    destruct (get_transform_to_base_from 0 q dh false) as [T|e] eqn:E;
      cbn [bind].
    + rewrite transform_beyond_table by assumption. reflexivity.
    + now rewrite (transform_error_kind _ _ _ _ _ E).
Qed.

Lemma construct_jacobian_edge_cases_witness :
  construct_jacobian (-1) (repeat 0 7) get_panda_DH_params (identity 4)
    = Raise ValueError /\
  construct_jacobian 8 (repeat 0 9) get_panda_DH_params (identity 4)
    = Raise IndexError.
Proof.
  destruct (construct_jacobian_edge_cases (-1) (repeat 0 7)
              get_panda_DH_params (identity 4)) as (Hneg & _ & _).
  destruct (construct_jacobian_edge_cases 8 (repeat 0 9)
              get_panda_DH_params (identity 4)) as (_ & _ & Hbig).
  split; [apply Hneg; lia | apply Hbig].
  - unfold len. simpl. lia.
  - split; [reflexivity|]. repeat constructor.
Defined.

Lemma jacobian_column_short (q : list R) (dh : list DHParameter) (base : matrix)
    (n i : nat) :
  has_shape 4 4 base -> (n < length dh)%nat -> (n < length q)%nat ->
  (i < n)%nat ->
  exists l0 l1 l2 z0 z1 z2,
    axis_lever_column base (chain (S n) q dh) (chain (S i) q dh)
      = Ok [l0; l1; l2; z0; z1; z2] /\
    forall J : matrix,
      jacobian_column (Z.of_nat n) q dh base J (Z.of_nat i) =
      Ok (set_col J i (colmat [l0; l1; l2; z0; z1; z2])).
Proof.
  intros HB Hd Hq Hi.
  destruct (frames_column base (chain (S n) q dh) (chain (S i) q dh) HB
              (rigid_chain _ _ _) (rigid_chain _ _ _))
    as (l0 & l1 & l2 & z0 & z1 & z2 & Hcol & _ & Hcode).
  exists l0, l1, l2, z0, z1, z2. split; [exact Hcol|].
  intros J. unfold jacobian_column, calc_Z, calc_P.
  rewrite !transform_inclusive by lia.
  cbn [bind]. rewrite Nat2Z.id. apply Hcode.
Qed.

(** X8: With a joint count below the length of the table the Jacobian still has
    one column per counted joint, but the end-effector frame its lever arms
    point to is the frame after joint [n_joints] itself: the product of
    [n_joints + 1] per-joint matrices. *)
Theorem jacobian_of_shorter_chain (q : list R) (dh : list DHParameter)
    (base : matrix) (n : nat) :
  has_shape 4 4 base -> (n < length dh)%nat -> (n < length q)%nat ->
  exists J,
    construct_jacobian (Z.of_nat n) q dh base = Ok J /\
    has_shape 6 n J /\
    forall i, (i < n)%nat ->
      axis_lever_column base
        (spec_product (firstn (S n) (joint_transforms q dh)))
        (spec_product (firstn (S i) (joint_transforms q dh)))
      = Ok (col i J).
Proof.
  intros HB Hd Hq. unfold construct_jacobian.
  replace (Z.of_nat n <? 0)%Z with false by (symmetry; apply Z.ltb_ge; lia).
  rewrite Nat2Z.id.
  set (V := fun i : nat =>
              match axis_lever_column base (chain (S n) q dh)
                      (chain (S i) q dh) with
              | Ok v => v
              | Raise _ => []
              end).
  destruct (fill_columns (jacobian_column (Z.of_nat n) q dh base) V 6 n)
    with (k := n) (J0 := zeros 6 n) as (J & Hrun & HJ & Hcols & _).
  - intros i J Hi.
    destruct (jacobian_column_short q dh base n i HB Hd Hq Hi)
      as (l0 & l1 & l2 & z0 & z1 & z2 & Hcol & Hcode).
    unfold V. rewrite Hcol. apply Hcode.
  - intros i Hi.
    destruct (jacobian_column_short q dh base n i HB Hd Hq Hi)
      as (l0 & l1 & l2 & z0 & z1 & z2 & Hcol & _).
    unfold V. rewrite Hcol. reflexivity.
  - lia.
  - apply zeros_shape.
  - exists J. split; [exact Hrun|]. split; [exact HJ|].
    intros i Hi.
    destruct (jacobian_column_short q dh base n i HB Hd Hq Hi)
      as (l0 & l1 & l2 & z0 & z1 & z2 & Hcol & _).
    rewrite (Hcols i Hi). unfold V. fold (chain (S n) q dh).
    fold (chain (S i) q dh). now rewrite Hcol.
Qed.

Lemma jacobian_of_shorter_chain_witness :
  exists J,
    construct_jacobian 3 (repeat 0 7) get_panda_DH_params (identity 4) = Ok J /\
    has_shape 6 3 J.
Proof.
  destruct (jacobian_of_shorter_chain (repeat 0 7) get_panda_DH_params
              (identity 4) 3) as (J & HJ & HS & _).
  - split; [reflexivity|]. repeat constructor.
  - simpl. lia.
  - simpl. lia.
  - exists J. split; [exact HJ | exact HS].
Defined.

Lemma lever_to_own_frame (base T : matrix) :
  has_shape 4 4 base -> rigid T ->
  exists z0 z1 z2, axis_lever_column base T T = Ok [0; 0; 0; z0; z1; z2].
Proof.
  intros HB HT.
  destruct (shape44_entries _ HB)
    as (b00 & b01 & b02 & b03 & b10 & b11 & b12 & b13
        & b20 & b21 & b22 & b23 & b30 & b31 & b32 & b33 & ->).
  destruct HT as (t00 & t01 & t02 & t10 & t11 & t12 & t20 & t21 & t22
                  & tx & ty & tz & -> & _).
  unfold axis_lever_column, z_axis, position, hom. cbn.
  do 3 eexists. list_eq; first [reflexivity | ring].
Qed.

(** X9: The last column of the Jacobian of a whole table has a zero linear
    block: the frame of the last joint is the end-effector frame (the level
    of the last joint and the level of the table give the same transform),
    so its lever arm is the zero vector. *)
Theorem last_column_linear_block_is_zero (q : list R) (dh : list DHParameter)
    (base : matrix) :
  has_shape 4 4 base -> (0 < length dh)%nat -> (length dh <= length q)%nat ->
  exists J,
    construct_jacobian (len dh) q dh base = Ok J /\
    firstn 3 (col (length dh - 1) J) = [0; 0; 0].
Proof.
  intros HB Hd Hq.
  destruct (filled_jacobian q dh base HB Hq) as (J & HJ & _ & Hcols).
  exists J. split; [exact HJ|].
  destruct (Hcols (length dh - 1)%nat ltac:(lia)) as [Hcol _].
  replace (S (length dh - 1)) with (length dh) in Hcol by lia.
  destruct (lever_to_own_frame base (chain (length dh) q dh) HB
              (rigid_chain _ _ _)) as (z0 & z1 & z2 & Hself).
  rewrite Hself in Hcol. injection Hcol as <-. reflexivity.
Qed.

Lemma last_column_linear_block_is_zero_witness :
  exists J,
    construct_jacobian 7 (repeat 0 7) get_panda_DH_params (identity 4) = Ok J /\
    firstn 3 (col 6 J) = [0; 0; 0].
Proof.
  destruct (last_column_linear_block_is_zero (repeat 0 7) get_panda_DH_params
              (identity 4)) as (J & HJ & H0).
  - split; [reflexivity|]. repeat constructor.
  - simpl. lia.
  - simpl. lia.
  - exists J. split; [exact HJ | exact H0].
Defined.




(** ** your_fk *)





(** X12: The end-effector transform of lines 132-145 is the chain transform moved
    by the base position: its rotation block is the chain's, its position
    is the chain's position plus the base position, and the adjustment of
    line 154 leaves that position as it is. *)
Theorem end_effector_position_is_base_plus_chain (x y z : R)
    (dh : list DHParameter) (q : list R) :
  length dh = 7%nat -> length q = 7%nat ->
  exists (A : matrix) (cx cy cz : R),
    end_effector_transform ([x; y; z] ++ [0; 0; 0; 1]) q dh = Ok A /\
    position (chain 7 q dh) = [cx; cy; cz] /\
    position A = [x + cx; y + cy; z + cz] /\
    position (apply_adjustment A) = position A /\
    block 3 3 A = block 3 3 (chain 7 q dh).
Proof.
  intros Hd Hq.
  pose proof (transform_full q dh ltac:(lia)) as HT.
  unfold len in HT. rewrite Hd in HT. change (Z.of_nat 7) with 7%Z in HT.
  exists (hom 1 0 0 0 1 0 0 0 1 x y z @ chain 7 q dh).
  assert (HS : has_shape 4 4 (hom 1 0 0 0 1 0 0 0 1 x y z @ chain 7 q dh)).
  { apply rigid_shape, rigid_matmul;
      [apply rigid_translation | apply rigid_chain]. }
  destruct (apply_adjustment_frame _ HS) as (Hc & _).
  unfold position at 3 4. rewrite Hc. clear Hc HS.
  destruct (rigid_chain 7 q dh)
    as (c00 & c01 & c02 & c10 & c11 & c12 & c20 & c21 & c22
        & cx & cy & cz & Hchain & _).
  exists cx, cy, cz.
  unfold end_effector_transform. rewrite base_transform, HT. cbn [bind].
  rewrite Hchain, matmul_hom. unfold position, block, hom. cbn.
  split; [reflexivity|]. split; [reflexivity|].
  split; [list_eq; ring|]. split; [reflexivity | list_eq; ring].
Qed.

Lemma end_effector_position_is_base_plus_chain_witness :
  exists (A : matrix) (cx cy cz : R),
    end_effector_transform ([1; 2; 3] ++ [0; 0; 0; 1]) (repeat 0 7)
      get_panda_DH_params = Ok A /\
    position A = [1 + cx; 2 + cy; 3 + cz].
Proof.
  destruct (end_effector_position_is_base_plus_chain 1 2 3
              get_panda_DH_params (repeat 0 7))
    as (A & cx & cy & cz & HA & _ & HP & _); [reflexivity | reflexivity |].
  exists A, cx, cy, cz. split; [exact HA | exact HP].
Defined.




(** ** score_fk *)

Lemma getitem_at {A : Type} (l : list A) (k : nat) (x dflt : A) :
  getitem l (Z.of_nat k) = Ok x -> (k < length l)%nat /\ nth k l dflt = x.
Proof.
  rewrite getitem_of_nat. destruct (nth_error l k) as [y|] eqn:E; [|discriminate].
  intros [= <-]. split; [apply nth_error_Some; congruence|].
  now apply nth_error_nth.
Qed.

Lemma unchanged_refl {A : Type} (k : nat) (dflt : A) (l : list A) :
  unchanged_except k dflt l l.
Proof. split; reflexivity. Qed.

Lemma unchanged_trans {A : Type} (k : nat) (dflt : A) (l1 l2 l3 : list A) :
  unchanged_except k dflt l1 l2 -> unchanged_except k dflt l2 l3 ->
  unchanged_except k dflt l1 l3.
Proof.
  intros [L1 H1] [L2 H2]. split; [congruence|].
  intros j Hj. now rewrite H2, H1.
Qed.

Lemma unchanged_setitem {A : Type} (k : nat) (dflt x : A) (l : list A) :
  unchanged_except k dflt l (setitem l k x).
Proof.
  split; [apply length_setitem|]. intros j Hj.
  apply nth_setitem_other. congruence.
Qed.

Lemma tallied_later (M penalty : R) (i : Z) (k : nat) (scores : list R)
    (cnts : list Z) :
  tallied M penalty i k scores cnts -> tallied M penalty (i + 1) k scores cnts.
Proof. intros [H1 H2]. split; [exact H1 | lia]. Qed.

Lemma tallied_penalised (M penalty s : R) (i c : Z) (k : nat) (scores : list R)
    (cnts : list Z) :
  getitem scores (Z.of_nat k) = Ok s -> getitem cnts (Z.of_nat k) = Ok c ->
  tallied M penalty i k scores cnts ->
  tallied M penalty (i + 1) k (setitem scores k (s - penalty))
    (setitem cnts k (c + 1)%Z).
Proof.
  intros Hs Hc [H1 H2].
  destruct (getitem_at _ _ _ 0 Hs) as [Ls Es].
  destruct (getitem_at _ _ _ 0%Z Hc) as [Lc Ec].
  unfold tallied. rewrite !nth_setitem_same by assumption.
  rewrite Es in H1. rewrite Ec in H1, H2.
  split; [rewrite plus_IZR; lra | lia].
Qed.

Lemma for_range_indexed_invariant {S : Type} (I : nat -> S -> Prop)
    (body : S -> Z -> result S) (m : nat) :
  (forall i s s', (i < m)%nat -> I i s -> body s (Z.of_nat i) = Ok s' ->
                  I (Datatypes.S i) s') ->
  forall s s', I 0%nat s -> for_each (range (Z.of_nat m)) body s = Ok s' ->
               I m s'.
Proof.
  induction m as [|m IH]; intros Hbody s s' Hs H.
  - injection H as <-. exact Hs.
  - rewrite range_succ, for_each_app in H.
    destruct (for_each (range (Z.of_nat m)) body s) as [s1|e] eqn:E;
      cbn [bind] in H; [|discriminate].
    cbn [for_each] in H.
    destruct (body s1 (Z.of_nat m)) as [s2|e] eqn:E2; cbn [bind] in H;
      [|discriminate].
    injection H as <-.
    apply (Hbody m s1 s2 (Nat.lt_succ_diag_r m)); [|exact E2].
    apply (IH (fun i t t' Hi => Hbody i t t' (Nat.lt_lt_succ_r _ _ Hi)) s s1 Hs E).
Qed.

Lemma Rmax_clamp (s : R) : (if Rlt_dec s 0.0 then 0.0 else s) = Rmax 0 s.
Proof.
  destruct (Rlt_dec s 0.0) as [H|H].
  - rewrite Rmax_left by lra. lra.
  - rewrite Rmax_right by lra. reflexivity.
Qed.

Section ScoringExact.

Variable get_pose_from_matrix : matrix -> list R.
Variable linalg_norm_ord2 : matrix -> R.

(** One test case touches the slots of its own file only, and keeps the
    score of the file equal to its maximum less one penalty per counted
    error. *)
Lemma score_case_tally (robot : pandaEnv) (dhp : list DHParameter)
    (fk : fk_dict) (k : nat) (penalty : R) (st st' : score_state) (i : Z) :
  score_case get_pose_from_matrix linalg_norm_ord2 robot dhp fk (Z.of_nat k)
    penalty st i = Ok st' ->
  (unchanged_except k 0 (fk_score st) (fk_score st') /\
   unchanged_except k 0%Z (fk_error_cnt st) (fk_error_cnt st') /\
   unchanged_except k 0 (jacobian_score st) (jacobian_score st') /\
   unchanged_except k 0%Z (jacobian_error_cnt st) (jacobian_error_cnt st')) /\
  (forall M c,
     tallied M penalty c k (fk_score st) (fk_error_cnt st) ->
     tallied M penalty (c + 1) k (fk_score st') (fk_error_cnt st')) /\
  (forall M c,
     tallied M penalty c k (jacobian_score st) (jacobian_error_cnt st) ->
     tallied M penalty (c + 1) k (jacobian_score st') (jacobian_error_cnt st')).
Proof.
  intros H. unfold score_case in H.
  bind_inv_as H qi Eqi. bind_inv_as H yours Eyours. bind_inv_as H gpose Egpose.
  bind_inv_as H pdiff Epdiff. bind_inv_as H st1 Est1.
  bind_inv_as H gj Egj. bind_inv_as H jdiff Ejdiff.
  assert (H1 :
    (unchanged_except k 0 (fk_score st) (fk_score st1) /\
     unchanged_except k 0%Z (fk_error_cnt st) (fk_error_cnt st1) /\
     jacobian_score st1 = jacobian_score st /\
     jacobian_error_cnt st1 = jacobian_error_cnt st) /\
    (forall M c,
       tallied M penalty c k (fk_score st) (fk_error_cnt st) ->
       tallied M penalty (c + 1) k (fk_score st1) (fk_error_cnt st1))).
  { destruct (Rgt_dec _ FK_ERROR_THRESH).
    - bind_inv Est1. bind_inv Est1. injection Est1 as <-.
      cbn [fk_score fk_error_cnt jacobian_score jacobian_error_cnt].
      rewrite Nat2Z.id. split.
      + split; [apply unchanged_setitem|]. split; [apply unchanged_setitem|].
        split; reflexivity.
      + intros M c. now apply tallied_penalised.
    - injection Est1 as <-. split.
      + split; [apply unchanged_refl|]. split; [apply unchanged_refl|].
        split; reflexivity.
      + intros M c. apply tallied_later. }
  destruct H1 as [(U1 & U2 & Ej & Ec) T1].
  destruct (Rgt_dec _ JACOBIAN_ERROR_THRESH).
  - bind_inv H. bind_inv H. injection H as <-.
    cbn [fk_score fk_error_cnt jacobian_score jacobian_error_cnt].
    rewrite Nat2Z.id. rewrite Ej in *. rewrite Ec in *. split; [|split].
    + split; [exact U1|]. split; [exact U2|].
      split; apply unchanged_setitem.
    + exact T1.
    + intros M c. now apply tallied_penalised.
  - injection H as <-. rewrite Ej, Ec. split; [|split].
    + split; [exact U1|]. split; [exact U2|]. split; apply unchanged_refl.
    + exact T1.
    + intros M c. apply tallied_later.
Qed.

(** One file: the report gives exactly the clamped tally, and the slots of
    the later files are still untouched. *)
Lemma score_file_exact (robot : pandaEnv) (dhp : list DHParameter) (n k : nat)
    (fk : fk_dict) (st st' : score_state) (r : file_report) :
  (k < n)%nat -> fresh_from n k st ->
  score_file get_pose_from_matrix linalg_norm_ord2 robot dhp (Z.of_nat n) st
    (Z.of_nat k, fk) = Ok (st', r) ->
  fresh_from n (S k) st' /\ report_exact n r.
Proof.
  intros Hk Hfresh H.
  unfold score_file in H. cbn [fst snd] in H.
  bind_inv H. bind_inv H.
  unfold truediv in E, E0.
  destruct (Req_dec_T (IZR (Z.of_nat n)) 0); [discriminate|].
  destruct (Req_dec_T (0.3 * IZR (len (joint_poses fk))) 0) as [|Hc];
    [discriminate|].
  injection E as <-. injection E0 as <-.
  rewrite <- INR_IZR_INZ in H.
  set (penalty := TASK1_SCORE_MAX / INR n / (0.3 * IZR (len (joint_poses fk))))
    in *.
  assert (Hcases : (0 < len (joint_poses fk))%Z).
  { unfold len in *. destruct (length (joint_poses fk)); [|lia].
    exfalso. apply Hc. cbn [Z.of_nat]. lra. }
  bind_inv_as H st1 Eloop.
  pose (I := fun (i : nat) (s : score_state) =>
    (unchanged_except k 0 (fk_score st) (fk_score s) /\
     unchanged_except k 0%Z (fk_error_cnt st) (fk_error_cnt s) /\
     unchanged_except k 0 (jacobian_score st) (jacobian_score s) /\
     unchanged_except k 0%Z (jacobian_error_cnt st) (jacobian_error_cnt s)) /\
    tallied (FK_SCORE_MAX / INR n) penalty (Z.of_nat i) k
      (fk_score s) (fk_error_cnt s) /\
    tallied (JACOBIAN_SCORE_MAX / INR n) penalty (Z.of_nat i) k
      (jacobian_score s) (jacobian_error_cnt s)).
  assert (HI : I (length (joint_poses fk)) st1).
  { apply (for_range_indexed_invariant I
             (score_case get_pose_from_matrix linalg_norm_ord2 robot dhp fk
                (Z.of_nat k) penalty) (length (joint_poses fk))) with (s := st).
    - intros i s s' Hi ((U1 & U2 & U3 & U4) & Tf & Tj) Hstep.
      destruct (score_case_tally _ _ _ _ _ _ _ _ Hstep)
        as ((V1 & V2 & V3 & V4) & Sf & Sj).
      unfold I. replace (Z.of_nat (S i)) with (Z.of_nat i + 1)%Z by lia.
      split; [|split; [now apply Sf | now apply Sj]].
      split; [eapply unchanged_trans; eassumption|].
      split; [eapply unchanged_trans; eassumption|].
      split; eapply unchanged_trans; eassumption.
    - destruct (Hfresh k ltac:(lia)) as (F1 & F2 & F3 & F4).
      split; [|split].
      + split; [apply unchanged_refl|]. split; [apply unchanged_refl|].
        split; apply unchanged_refl.
      + unfold tallied. rewrite F1, F2. cbn [Z.of_nat]. split; [lra | lia].
      + unfold tallied. rewrite F3, F4. cbn [Z.of_nat]. split; [lra | lia].
    - exact Eloop. }
  destruct HI as ((U1 & U2 & U3 & U4) & [Tf Cf] & [Tj Cj]).
  bind_inv_as H s1 Es1.
  cbn [fk_score jacobian_score fk_error_cnt jacobian_error_cnt] in H.
  bind_inv_as H s2 Es2.
  cbn [fk_score jacobian_score fk_error_cnt jacobian_error_cnt] in H.
  rewrite Nat2Z.id in H.
  bind_inv_as H fs Efs. bind_inv_as H fmax Efmax. bind_inv_as H fc Efc.
  bind_inv_as H js Ejs. bind_inv_as H jmax Ejmax. bind_inv_as H jc Ejc.
  injection H as <- <-.
  destruct (getitem_at _ _ _ 0 Es1) as [Lf Ef].
  destruct (getitem_at _ _ _ 0 Es2) as [Lj Ej].
  destruct (getitem_at _ _ _ 0 Efs) as [_ Efs'].
  destruct (getitem_at _ _ _ 0%Z Efc) as [_ Efc'].
  destruct (getitem_at _ _ _ 0 Ejs) as [_ Ejs'].
  destruct (getitem_at _ _ _ 0%Z Ejc) as [_ Ejc'].
  rewrite nth_setitem_same in Efs', Ejs' by assumption.
  split.
  - intros j Hj. cbn [fk_score fk_error_cnt jacobian_score jacobian_error_cnt].
    rewrite !nth_setitem_other by lia.
    destruct U1 as [_ U1]. destruct U2 as [_ U2].
    destruct U3 as [_ U3]. destruct U4 as [_ U4].
    rewrite U1, U2, U3, U4 by lia. apply Hfresh. lia.
  - unfold report_exact.
    cbn [r_cases_num r_fk_error_cnt r_jacobian_error_cnt r_fk_score
         r_jacobian_score].
    fold penalty. subst fs fc js jc. rewrite !Rmax_clamp.
    rewrite <- Ef, <- Ej, Tf, Tj.
    split; [exact Hcases|]. unfold len.
    split; [exact Cf|]. split; [exact Cj|]. split; reflexivity.
Qed.

Lemma score_files_exact (robot : pandaEnv) (dhp : list DHParameter) (n : nat)
    (fs : list fk_dict) :
  forall (k : nat) (st : score_state) (printed : list file_report),
    (k + length fs <= n)%nat -> fresh_from n k st ->
    Forall (report_exact n) printed ->
    Forall (report_exact n)
      (fst (for_each_print (combine (map Z.of_nat (seq k (length fs))) fs)
              (score_file get_pose_from_matrix linalg_norm_ord2 robot dhp
                 (Z.of_nat n)) st printed)).
Proof.
  induction fs as [|fk fs IH]; intros k st printed Hk Hfresh HP.
  - exact HP.
  - cbn [length] in Hk. cbn [length seq map combine for_each_print].
    destruct (score_file _ _ _ _ _ _ (Z.of_nat k, fk)) as [[st1 r]|e] eqn:E.
    + assert (Hkn : (k < n)%nat) by lia.
      destruct (score_file_exact _ _ _ _ _ _ _ _ Hkn Hfresh E)
        as [Hfresh1 Hr].
      apply IH; [lia | exact Hfresh1|].
      apply Forall_app. split; [exact HP | now constructor].
    + exact HP.
Qed.

Lemma score_fk_reports_exact (robot : pandaEnv) (files : list fk_dict) :
  Forall (report_exact (length files))
    (fst (score_fk get_pose_from_matrix linalg_norm_ord2 robot files)).
Proof.
  unfold score_fk. cbn [fst].
  unfold enumerate, len. rewrite range_of_nat, <- INR_IZR_INZ.
  apply score_files_exact; [lia | | constructor].
  intros j Hj.
  cbn [fk_score fk_error_cnt jacobian_score jacobian_error_cnt].
  rewrite !nth_repeat_lt by lia. repeat split; reflexivity.
Qed.

End ScoringExact.

Lemma report_exact_thresholds (n : nat) (r : file_report) :
  (0 < n)%nat -> report_exact n r ->
  (r_fk_error_cnt r = 0%Z -> r_fk_score r = FK_SCORE_MAX / INR n) /\
  (0.15 * IZR (r_cases_num r) <= IZR (r_fk_error_cnt r) -> r_fk_score r = 0) /\
  (r_jacobian_error_cnt r = 0%Z ->
   r_jacobian_score r = JACOBIAN_SCORE_MAX / INR n) /\
  (0.15 * IZR (r_cases_num r) <= IZR (r_jacobian_error_cnt r) ->
   r_jacobian_score r = 0).
Proof.
  intros Hn (Hc & _ & _ & Hf & Hj).
  assert (HN : 0 < INR n) by (apply lt_0_INR; lia).
  assert (HC : 0 < IZR (r_cases_num r)) by (apply IZR_lt; exact Hc).
  set (c := IZR (r_cases_num r)) in *.
  set (penalty := TASK1_SCORE_MAX / INR n / (0.3 * c)) in *.
  assert (Hpen : 0.15 * c * penalty = 10 / INR n).
  { unfold penalty, TASK1_SCORE_MAX, JACOBIAN_SCORE_MAX, FK_SCORE_MAX.
    assert (H10 : 10.0 = 10) by lra. assert (H3 : 0.3 = 3 / 10) by lra.
    assert (H15 : 0.15 = 15 / 100) by lra.
    rewrite H10, H3, H15. field. split; lra. }
  assert (Hpos : 0 < penalty).
  { unfold penalty, TASK1_SCORE_MAX, JACOBIAN_SCORE_MAX, FK_SCORE_MAX.
    apply Rdiv_lt_0_compat; [apply Rdiv_lt_0_compat|]; lra. }
  assert (HM : 0 < 10 / INR n) by (apply Rdiv_lt_0_compat; lra).
  assert (Hzero : forall x, 0.15 * c <= x -> 10 / INR n - x * penalty <= 0).
  { intros x Hx.
    assert (0.15 * c * penalty <= x * penalty)
      by (apply Rmult_le_compat_r; lra).
    lra. }
  unfold FK_SCORE_MAX, JACOBIAN_SCORE_MAX in *.
  assert (H10 : 10.0 = 10) by lra. rewrite H10 in *.
  repeat split.
  - intros H0. rewrite Hf, H0. rewrite Rmax_right; lra.
  - intros Hx. rewrite Hf. apply Rmax_left. now apply Hzero.
  - intros H0. rewrite Hj, H0. rewrite Rmax_right; lra.
  - intros Hx. rewrite Hj. apply Rmax_left. now apply Hzero.
Qed.

Lemma range_split (c m : nat) :
  (c < m)%nat ->
  exists rest, range (Z.of_nat m) = range (Z.of_nat c) ++ Z.of_nat c :: rest.
Proof.
  intros H. rewrite !range_of_nat.
  replace m with (c + S (m - S c))%nat by lia.
  rewrite seq_app, map_app. cbn [seq map Nat.add]. eauto.
Qed.

Section ScoringFailures.

Variable get_pose_from_matrix : matrix -> list R.
Variable linalg_norm_ord2 : matrix -> R.
Hypothesis pose_has_7 :
  forall A : matrix, length (get_pose_from_matrix A) = 7%nat.

(** The loop over the cases stops with the exception of the first case that
    raises, when the cases before it run. *)
Lemma cases_stop_at (body : score_state -> Z -> result score_state)
    (n c m : nat) (e : exn) (st : score_state) :
  (c < m)%nat ->
  (forall i s, (i < c)%nat -> state_len n s ->
     exists s', body s (Z.of_nat i) = Ok s' /\ state_len n s') ->
  (forall s, state_len n s -> body s (Z.of_nat c) = Raise e) ->
  state_len n st ->
  for_each (range (Z.of_nat m)) body st = Raise e.
Proof.
  intros Hc Hbefore Hat Hst.
  destruct (range_split c m Hc) as [rest ->].
  rewrite for_each_app.
  destruct (for_range_invariant (state_len n) body c Hbefore st Hst)
    as (s1 & -> & Hs1).
  cbn [bind for_each]. now rewrite (Hat s1 Hs1).
Qed.

Lemma score_file_raises (robot : pandaEnv) (fk : fk_dict) (n k c : nat)
    (e : exn) (st : score_state) :
  (0 < n)%nat -> (c < length (joint_poses fk))%nat ->
  (forall penalty i s, (i < c)%nat -> state_len n s ->
     exists s',
       score_case get_pose_from_matrix linalg_norm_ord2 robot
         get_panda_DH_params fk (Z.of_nat k) penalty s (Z.of_nat i) = Ok s' /\
       state_len n s') ->
  (forall penalty s, state_len n s ->
     score_case get_pose_from_matrix linalg_norm_ord2 robot
       get_panda_DH_params fk (Z.of_nat k) penalty s (Z.of_nat c) = Raise e) ->
  state_len n st ->
  score_file get_pose_from_matrix linalg_norm_ord2 robot get_panda_DH_params
    (Z.of_nat n) st (Z.of_nat k, fk) = Raise e.
Proof.
  intros Hn Hc Hbefore Hat Hst. unfold score_file, len. cbn [fst snd].
  assert (HN : IZR (Z.of_nat n) <> 0)
    by (rewrite <- INR_IZR_INZ; apply not_0_INR; lia).
  assert (HC : 0.3 * IZR (Z.of_nat (length (joint_poses fk))) <> 0).
  { rewrite <- INR_IZR_INZ.
    assert (0 < INR (length (joint_poses fk))) by (apply lt_0_INR; lia).
    lra. }
  rewrite truediv_ok by assumption. cbn [bind].
  rewrite truediv_ok by assumption. cbn [bind].
  rewrite (cases_stop_at _ n c (length (joint_poses fk)) e st Hc);
    [reflexivity | apply Hbefore | apply Hat | exact Hst].
Qed.

Lemma score_files_prefix (robot : pandaEnv) (n : nat) (pre rest : list fk_dict) :
  Forall wf_file pre ->
  forall (k : nat) (st : score_state) (printed : list file_report),
    (k + length pre <= n)%nat -> state_len n st ->
    exists st' new,
      state_len n st' /\ length new = length pre /\
      for_each_print
        (combine (map Z.of_nat (seq k (length (pre ++ rest)))) (pre ++ rest))
        (score_file get_pose_from_matrix linalg_norm_ord2 robot
           get_panda_DH_params (Z.of_nat n)) st printed
      = for_each_print
          (combine (map Z.of_nat (seq (k + length pre) (length rest))) rest)
          (score_file get_pose_from_matrix linalg_norm_ord2 robot
             get_panda_DH_params (Z.of_nat n)) st' (printed ++ new).
Proof.
  induction 1 as [|fk pre Hwf _ IH]; intros k st printed Hk Hst.
  - exists st, []. cbn [app length]. rewrite Nat.add_0_r, app_nil_r. auto.
  - cbn [length] in Hk. cbn [app length seq map combine for_each_print].
    destruct (score_file_runs get_pose_from_matrix linalg_norm_ord2 pose_has_7
                robot fk n k st Hwf ltac:(lia) Hst) as (st1 & r & -> & Hst1).
    destruct (IH (S k) st1 (printed ++ [r]) ltac:(lia) Hst1)
      as (st' & new & Hst' & Hlen & ->).
    exists st', (r :: new). split; [exact Hst'|].
    split; [simpl; lia|].
    rewrite <- app_assoc. cbn [app].
    replace (k + S (length pre))%nat with (S k + length pre)%nat by lia.
    reflexivity.
Qed.

(** [score_fk] stops at the first file whose round raises: the reports of
    the files before it are printed, and no total. *)
Lemma score_fk_stops_at (robot : pandaEnv) (pre post : list fk_dict)
    (f : fk_dict) (e : exn) :
  Forall wf_file pre ->
  (forall st, state_len (length (pre ++ f :: post)) st ->
     score_file get_pose_from_matrix linalg_norm_ord2 robot get_panda_DH_params
       (Z.of_nat (length (pre ++ f :: post))) st (Z.of_nat (length pre), f)
     = Raise e) ->
  let run := score_fk get_pose_from_matrix linalg_norm_ord2 robot
               (pre ++ f :: post) in
  length (fst run) = length pre /\ snd run = Raise e.
Proof.
  intros Hpre Hf. unfold score_fk. cbn [fst snd].
  unfold enumerate, len. rewrite range_of_nat.
  set (n := length (pre ++ f :: post)) in *.
  set (st0 := mkScore _ _ _ _).
  assert (Hst0 : state_len n st0)
    by (unfold state_len, st0; cbn; rewrite !repeat_length; auto).
  assert (Hn : (0 + length pre <= n)%nat)
    by (unfold n; rewrite length_app; simpl; lia).
  destruct (score_files_prefix robot n pre (f :: post) Hpre 0%nat st0 [] Hn Hst0)
    as (st' & new & Hst' & Hlen & Heq).
  unfold st0, n in *. rewrite Heq.
  cbn [length seq map combine for_each_print Nat.add app].
  rewrite (Hf st' Hst'). cbn [fst snd bind]. split; [exact Hlen | reflexivity].
Qed.

End ScoringFailures.

Lemma getitem_past_end {A : Type} (l : list A) :
  getitem l (Z.of_nat (length l)) = Raise IndexError.
Proof.
  rewrite getitem_of_nat.
  destruct (nth_error l (length l)) eqn:E; [|reflexivity].
  assert (length l < length l)%nat by (apply nth_error_Some; congruence). lia.
Qed.

Lemma score_file_no_cases (get_pose_from_matrix : matrix -> list R)
    (linalg_norm_ord2 : matrix -> R) (robot : pandaEnv) (fk : fk_dict)
    (n k : nat) (st : score_state) :
  (0 < n)%nat -> joint_poses fk = [] ->
  score_file get_pose_from_matrix linalg_norm_ord2 robot get_panda_DH_params
    (Z.of_nat n) st (Z.of_nat k, fk) = Raise ZeroDivisionError.
Proof.
  intros Hn He. unfold score_file, len. cbn [fst snd]. rewrite He.
  assert (HN : IZR (Z.of_nat n) <> 0)
    by (rewrite <- INR_IZR_INZ; apply not_0_INR; lia).
  rewrite truediv_ok by assumption. cbn [bind length Z.of_nat].
  unfold truediv. destruct (Req_dec_T (0.3 * 0) 0) as [_|H]; [reflexivity|].
  exfalso. apply H. lra.
Qed.

(** X14: Every per-file report [score_fk] prints, also before a later file stops
    the run, gives for each of the two scores exactly the per-file maximum
    less one penalty [(20 / n) / (0.3 * cases)] per counted error, cut off at
    0, with an error count between 0 and the number of cases of the file. *)
Theorem reported_scores_are_clamped_tallies
    (get_pose_from_matrix : matrix -> list R) (linalg_norm_ord2 : matrix -> R)
    (robot : pandaEnv) (files : list fk_dict) :
  Forall (report_exact (length files))
    (fst (score_fk get_pose_from_matrix linalg_norm_ord2 robot files)).
Proof. apply score_fk_reports_exact. Qed.

(** X15: In every per-file report a score with no counted error is the full
    per-file maximum, and a score is 0 as soon as the counted errors reach
    15 percent of the cases of the file. *)
Theorem reported_score_thresholds
    (get_pose_from_matrix : matrix -> list R) (linalg_norm_ord2 : matrix -> R)
    (robot : pandaEnv) (files : list fk_dict) :
  Forall (fun r =>
    (r_fk_error_cnt r = 0%Z ->
     r_fk_score r = FK_SCORE_MAX / INR (length files)) /\
    (0.15 * IZR (r_cases_num r) <= IZR (r_fk_error_cnt r) ->
     r_fk_score r = 0) /\
    (r_jacobian_error_cnt r = 0%Z ->
     r_jacobian_score r = JACOBIAN_SCORE_MAX / INR (length files)) /\
    (0.15 * IZR (r_cases_num r) <= IZR (r_jacobian_error_cnt r) ->
     r_jacobian_score r = 0))
    (fst (score_fk get_pose_from_matrix linalg_norm_ord2 robot files)).
Proof.
  destruct files as [|f files]; [constructor|].
  eapply Forall_impl;
    [|apply (score_fk_reports_exact get_pose_from_matrix linalg_norm_ord2
               robot (f :: files))].
  intros r Hr. apply report_exact_thresholds; [simpl; lia | exact Hr].
Qed.

(** X16: a test-case file without cases makes [score_fk] raise
    ZeroDivisionError (the penalty divides by [0.3 * cases_num]); the
    reports of the well-formed files before it have been printed, and no
    total is. *)
Theorem score_fk_divides_by_zero_on_empty_file
    (get_pose_from_matrix : matrix -> list R) (linalg_norm_ord2 : matrix -> R)
    (robot : pandaEnv) (pre post : list fk_dict) (f : fk_dict) :
  (forall A : matrix, length (get_pose_from_matrix A) = 7%nat) ->
  Forall wf_file pre -> joint_poses f = [] ->
  let run := score_fk get_pose_from_matrix linalg_norm_ord2 robot
               (pre ++ f :: post) in
  length (fst run) = length pre /\ snd run = Raise ZeroDivisionError.
Proof.
  intros Hpose Hpre He. apply score_fk_stops_at; [exact Hpose | exact Hpre|].
  intros st _. apply score_file_no_cases; [|exact He].
  rewrite length_app. simpl. lia.
Qed.

Lemma score_fk_divides_by_zero_on_empty_file_witness :
  snd (score_fk (fun _ => repeat 0 7) (fun _ => 0)
         (mkPandaEnv 0 1 (0, 0, 0.625))
         ([mkFkDict [repeat 0 7] [repeat 0 7] [repeat (repeat 0 7) 6]]
          ++ mkFkDict [] [] [] :: []))
  = Raise ZeroDivisionError.
Proof.
  apply (score_fk_divides_by_zero_on_empty_file (fun _ => repeat 0 7)
           (fun _ => 0) (mkPandaEnv 0 1 (0, 0, 0.625))
           [mkFkDict [repeat 0 7] [repeat 0 7] [repeat (repeat 0 7) 6]] []
           (mkFkDict [] [] []));
    [intros A; reflexivity | repeat constructor | reflexivity].
Defined.

(** X17: a case whose joint pose does not have 7 angles makes [score_fk] raise
    the AssertionError of [your_fk], once the cases before it in the file
    and the files before that have been worked through: the earlier files
    well formed, the earlier cases with 7 angles and a ground truth, and the
    ground truth of the file of the shapes of the results. *)
Theorem score_fk_rejects_wrong_angle_count
    (get_pose_from_matrix : matrix -> list R) (linalg_norm_ord2 : matrix -> R)
    (robot : pandaEnv) (pre post : list fk_dict) (f : fk_dict)
    (qs qs' : list (list R)) (q : list R) :
  (forall A : matrix, length (get_pose_from_matrix A) = 7%nat) ->
  Forall wf_file pre ->
  joint_poses f = qs ++ q :: qs' ->
  Forall (fun x => length x = 7%nat) qs -> length q <> 7%nat ->
  (length qs <= length (poses f))%nat ->
  (length qs <= length (jacobian f))%nat ->
  Forall (fun p => length p = 7%nat) (poses f) ->
  Forall (has_shape 6 7) (jacobian f) ->
  let run := score_fk get_pose_from_matrix linalg_norm_ord2 robot
               (pre ++ f :: post) in
  length (fst run) = length pre /\ snd run = Raise AssertionError.
Proof.
  intros Hpose Hpre Hjp Hqs Hq Hposes Hjacs Hp7 Hj67.
  apply score_fk_stops_at; [exact Hpose | exact Hpre|].
  intros st Hst.
  assert (Hn : (length pre < length (pre ++ f :: post))%nat)
    by (rewrite length_app; simpl; lia).
  rewrite Forall_forall in Hqs, Hp7, Hj67.
  apply (score_file_raises get_pose_from_matrix linalg_norm_ord2 robot f
           (length (pre ++ f :: post)) (length pre) (length qs)).
  - lia.
  - rewrite Hjp, length_app. simpl. lia.
  - intros penalty i s Hi Hs.
    destruct (nth_error qs i) as [qi|] eqn:Ei;
      [|apply nth_error_None in Ei; lia].
    destruct (nth_error (poses f) i) as [gp|] eqn:Egp;
      [|apply nth_error_None in Egp; lia].
    destruct (nth_error (jacobian f) i) as [gj|] eqn:Egj;
      [|apply nth_error_None in Egj; lia].
    apply (score_case_runs_at get_pose_from_matrix linalg_norm_ord2 Hpose
             robot f _ _ i penalty s qi gp gj); try assumption.
    + rewrite Hjp, nth_error_app1 by lia. exact Ei.
    + apply Hqs. eapply nth_error_In; eassumption.
    + apply Hp7. eapply nth_error_In; eassumption.
    + apply Hj67. eapply nth_error_In; eassumption.
  - intros penalty s _. unfold score_case.
    rewrite getitem_of_nat, Hjp, nth_error_app2, Nat.sub_diag by lia.
    cbn [nth_error bind].
    rewrite your_fk_rejects by (right; exact Hq). reflexivity.
  - exact Hst.
Qed.

Lemma score_fk_rejects_wrong_angle_count_witness :
  snd (score_fk (fun _ => repeat 0 7) (fun _ => 0)
         (mkPandaEnv 0 1 (0, 0, 0.625))
         ([] ++ mkFkDict ([repeat 0 7] ++ repeat 0 6 :: [])
                  [repeat 0 7] [repeat (repeat 0 7) 6] :: []))
  = Raise AssertionError.
Proof.
  apply (score_fk_rejects_wrong_angle_count (fun _ => repeat 0 7) (fun _ => 0)
           (mkPandaEnv 0 1 (0, 0, 0.625)) [] []
           (mkFkDict ([repeat 0 7] ++ repeat 0 6 :: [])
              [repeat 0 7] [repeat (repeat 0 7) 6])
           [repeat 0 7] [] (repeat 0 6)).
  - intros A. reflexivity.
  - constructor.
  - reflexivity.
  - repeat constructor.
  - simpl. lia.
  - simpl. lia.
  - simpl. lia.
  - repeat constructor.
  - repeat constructor.
Defined.

(** X18: a file with 7 angles in every case and ground truth of the shapes of
    the results, but fewer ground-truth poses or Jacobians than cases, makes
    [score_fk] raise IndexError at the first case without one. *)
Theorem score_fk_raises_on_missing_ground_truth
    (get_pose_from_matrix : matrix -> list R) (linalg_norm_ord2 : matrix -> R)
    (robot : pandaEnv) (pre post : list fk_dict) (f : fk_dict) :
  (forall A : matrix, length (get_pose_from_matrix A) = 7%nat) ->
  Forall wf_file pre ->
  Forall (fun x => length x = 7%nat) (joint_poses f) ->
  (length (poses f) < length (joint_poses f))%nat \/
  (length (jacobian f) < length (joint_poses f))%nat ->
  Forall (fun p => length p = 7%nat) (poses f) ->
  Forall (has_shape 6 7) (jacobian f) ->
  let run := score_fk get_pose_from_matrix linalg_norm_ord2 robot
               (pre ++ f :: post) in
  length (fst run) = length pre /\ snd run = Raise IndexError.
Proof.
  intros Hpose Hpre Hq7 Hshort Hp7 Hj67.
  apply score_fk_stops_at; [exact Hpose | exact Hpre|].
  intros st Hst.
  assert (Hn : (length pre < length (pre ++ f :: post))%nat)
    by (rewrite length_app; simpl; lia).
  set (c := Nat.min (length (poses f)) (length (jacobian f))).
  assert (Hc : (c < length (joint_poses f))%nat) by (unfold c; lia).
  rewrite Forall_forall in Hq7, Hp7, Hj67.
  apply (score_file_raises get_pose_from_matrix linalg_norm_ord2 robot f
           (length (pre ++ f :: post)) (length pre) c).
  - lia.
  - exact Hc.
  - intros penalty i s Hi Hs.
    destruct (nth_error (joint_poses f) i) as [qi|] eqn:Ei;
      [|apply nth_error_None in Ei; lia].
    destruct (nth_error (poses f) i) as [gp|] eqn:Egp;
      [|apply nth_error_None in Egp; unfold c in Hi; lia].
    destruct (nth_error (jacobian f) i) as [gj|] eqn:Egj;
      [|apply nth_error_None in Egj; unfold c in Hi; lia].
    apply (score_case_runs_at get_pose_from_matrix linalg_norm_ord2 Hpose
             robot f _ _ i penalty s qi gp gj); try assumption.
    + apply Hq7. eapply nth_error_In; eassumption.
    + apply Hp7. eapply nth_error_In; eassumption.
    + apply Hj67. eapply nth_error_In; eassumption.
  - intros penalty s (L1 & L2 & L3 & L4). unfold score_case.
    destruct (getitem_lt (joint_poses f) c Hc) as (qc & -> & Hin).
    cbn [bind].
    pose proof (your_fk_valid get_pose_from_matrix robot get_panda_DH_params
                  qc eq_refl (Hq7 qc Hin)) as Hfk.
    destruct (_base_position robot) as [[x y] z] eqn:Hb.
    destruct Hfk as (J & _ & _ & _ & _ & ->). cbn [bind fst snd].
    destruct (Nat.eq_dec c (length (poses f))) as [Ep|Np].
    + rewrite Ep, getitem_past_end. reflexivity.
    + assert (Ej : c = length (jacobian f)) by (unfold c in *; lia).
      destruct (getitem_lt (poses f) c ltac:(unfold c in *; lia))
        as (gp & -> & Hgp).
      cbn [bind].
      rewrite np_sub_vec_same by (rewrite Hpose; symmetry; now apply Hp7).
      cbn [bind].
      destruct (Rgt_dec _ FK_ERROR_THRESH).
      * destruct (getitem_lt (fk_score s) (length pre) ltac:(lia))
          as (s1 & -> & _).
        destruct (getitem_lt (fk_error_cnt s) (length pre) ltac:(lia))
          as (c1 & -> & _).
        cbn [bind]. rewrite Ej, getitem_past_end. reflexivity.
      * cbn [bind]. rewrite Ej, getitem_past_end. reflexivity.
  - exact Hst.
Qed.

Lemma score_fk_raises_on_missing_ground_truth_witness :
  snd (score_fk (fun _ => repeat 0 7) (fun _ => 0)
         (mkPandaEnv 0 1 (0, 0, 0.625))
         ([] ++ mkFkDict [repeat 0 7; repeat 0 7] [repeat 0 7]
                  [repeat (repeat 0 7) 6; repeat (repeat 0 7) 6] :: []))
  = Raise IndexError.
Proof.
  apply (score_fk_raises_on_missing_ground_truth (fun _ => repeat 0 7)
           (fun _ => 0) (mkPandaEnv 0 1 (0, 0, 0.625)) [] []
           (mkFkDict [repeat 0 7; repeat 0 7] [repeat 0 7]
              [repeat (repeat 0 7) 6; repeat (repeat 0 7) 6])).
  - intros A. reflexivity.
  - constructor.
  - repeat constructor.
  - left. simpl. lia.
  - repeat constructor.
  - repeat constructor.
Defined.

(** ** Whole turns of the joints *)

Lemma getitem_map {A B : Type} (f : A -> B) (l : list A) (i : Z) :
  getitem (map f l) i =
  match getitem l i with Ok x => Ok (f x) | Raise e => Raise e end.
Proof.
  unfold getitem, len. rewrite length_map, nth_error_map.
  destruct ((if (i <? 0)%Z then (Z.of_nat (length l) + i)%Z else i) <? 0)%Z;
    [reflexivity|].
  destruct (nth_error l _); reflexivity.
Qed.

Lemma cos_full_turn (x : R) : cos (x + 2 * PI) = cos x.
Proof.
  replace (x + 2 * PI) with (x + PI + PI) by ring.
  rewrite !neg_cos. ring.
Qed.

Lemma sin_full_turn (x : R) : sin (x + 2 * PI) = sin x.
Proof.
  replace (x + 2 * PI) with (x + PI + PI) by ring.
  rewrite !neg_sin. ring.
Qed.

Lemma compose_joint_full_turn (pose : list R) (dh : list DHParameter)
    (T : matrix) (i : Z) :
  compose_joint (map (fun th => th + 2 * PI) pose) dh T i =
  compose_joint pose dh T i.
Proof.
  unfold compose_joint. rewrite getitem_map.
  destruct (getitem pose i) as [th|e]; [|reflexivity]. cbn [bind].
  destruct (getitem dh i) as [p|e]; [|reflexivity]. cbn [bind].
  now rewrite cos_full_turn, sin_full_turn.
Qed.

Lemma transform_full_turn (level : Z) (pose : list R) (dh : list DHParameter)
    (flag : bool) :
  get_transform_to_base_from level (map (fun th => th + 2 * PI) pose) dh flag =
  get_transform_to_base_from level pose dh flag.
Proof.
  unfold get_transform_to_base_from.
  rewrite (for_each_ext_in (range level)
             (compose_joint (map (fun th => th + 2 * PI) pose) dh)
             (compose_joint pose dh))
    by (intros; apply compose_joint_full_turn).
  destruct (for_each (range level) (compose_joint pose dh) (identity 4));
    [|reflexivity].
  cbn [bind]. now rewrite compose_joint_full_turn.
Qed.

Lemma jacobian_full_turn (n_joints : Z) (q : list R) (dh : list DHParameter)
    (base : matrix) :
  construct_jacobian n_joints (map (fun th => th + 2 * PI) q) dh base =
  construct_jacobian n_joints q dh base.
Proof.
  unfold construct_jacobian. destruct (n_joints <? 0)%Z; [reflexivity|].
  apply for_each_ext_in. intros i J _.
  unfold jacobian_column, calc_Z, calc_P. now rewrite !transform_full_turn.
Qed.

(** X19: Turning every joint by a whole turn changes nothing: [your_fk] returns
    the same pose and Jacobian, or raises the same exception, for the angles
    [q] and for the angles [q + 2 pi]. *)
Theorem your_fk_ignores_whole_turns
    (get_pose_from_matrix : matrix -> list R)
    (robot : pandaEnv) (dh : list DHParameter) (q : list R) :
  your_fk get_pose_from_matrix robot dh (map (fun th => th + 2 * PI) q) =
  your_fk get_pose_from_matrix robot dh q.
Proof.
  unfold your_fk, len. rewrite length_map.
  destruct (negb _); [reflexivity|].
  unfold end_effector_transform. rewrite transform_full_turn.
  destruct (get_matrix_from_pose _) as [B|e]; [|reflexivity]. cbn [bind].
  destruct (get_transform_to_base_from 7 q dh false); [|reflexivity].
  cbn [bind]. now rewrite jacobian_full_turn.
Qed.

Lemma reported_scores_are_clamped_tallies_witness :
  let run := score_fk (fun _ => repeat 0 7) (fun _ => 0)
               (mkPandaEnv 0 1 (0, 0, 0.625))
               [mkFkDict [repeat 0 7] [repeat 0 7] [repeat (repeat 0 7) 6]] in
  exists r, fst run = [r] /\ report_exact 1 r.
Proof.
  intros run.
  pose proof (reported_scores_are_clamped_tallies (fun _ => repeat 0 7)
                (fun _ => 0) (mkPandaEnv 0 1 (0, 0, 0.625))
                [mkFkDict [repeat 0 7] [repeat 0 7] [repeat (repeat 0 7) 6]])
    as HF.
  destruct (score_fk_runs (fun _ => repeat 0 7) (fun _ => 0)
              (fun _ => eq_refl) (mkPandaEnv 0 1 (0, 0, 0.625))
              [mkFkDict [repeat 0 7] [repeat 0 7] [repeat (repeat 0 7) 6]])
    as (t & m & Hrun); [repeat constructor|].
  destruct (score_fk_reports (fun _ => repeat 0 7) (fun _ => 0)
              (mkPandaEnv 0 1 (0, 0, 0.625))
              [mkFkDict [repeat 0 7] [repeat 0 7] [repeat (repeat 0 7) 6]])
    as [_ HT].
  destruct (HT t m Hrun) as (HL & _).
  fold run in HF, HL. destruct (fst run) as [|r [|r' rs]]; try discriminate HL.
  exists r. split; [reflexivity|]. now inversion HF.
Defined.

Lemma reported_score_thresholds_witness :
  let run := score_fk (fun _ => repeat 0 7) (fun _ => 0)
               (mkPandaEnv 0 1 (0, 0, 0.625))
               [mkFkDict [repeat 0 7] [repeat 0 7] [repeat (repeat 0 7) 6]] in
  exists r, fst run = [r] /\
            (r_fk_error_cnt r = 0%Z -> r_fk_score r = FK_SCORE_MAX / INR 1).
Proof.
  intros run.
  pose proof (reported_score_thresholds (fun _ => repeat 0 7)
                (fun _ => 0) (mkPandaEnv 0 1 (0, 0, 0.625))
                [mkFkDict [repeat 0 7] [repeat 0 7] [repeat (repeat 0 7) 6]])
    as HF.
  destruct (score_fk_runs (fun _ => repeat 0 7) (fun _ => 0)
              (fun _ => eq_refl) (mkPandaEnv 0 1 (0, 0, 0.625))
              [mkFkDict [repeat 0 7] [repeat 0 7] [repeat (repeat 0 7) 6]])
    as (t & m & Hrun); [repeat constructor|].
  destruct (score_fk_reports (fun _ => repeat 0 7) (fun _ => 0)
              (mkPandaEnv 0 1 (0, 0, 0.625))
              [mkFkDict [repeat 0 7] [repeat 0 7] [repeat (repeat 0 7) 6]])
    as [_ HT].
  destruct (HT t m Hrun) as (HL & _).
  fold run in HF, HL. destruct (fst run) as [|r [|r' rs]]; try discriminate HL.
  exists r. split; [reflexivity|]. inversion HF as [|? ? Hr _]. apply Hr.
Defined.
